(** * pdf-extractor-api: persistence layer, filename utilities, retention
      sweeper and worker-status endpoint

    A shallow embedding of
      - app/utils/file_utils.py        (parse_image_filename)
      - app/database/repository.py     (save_text_content, get_document,
                                        list_documents)
      - app/workers/file_cleanup.py    (FileCleanupWorker and the module-level
                                        construction of the single instance)
      - app/controllers/worker_controller.py (get_worker_status)
    followed by the properties of the specification that concern them.

    Python values are modelled as follows: [int] is [Z], [str] is [string]
    (text is taken to be ASCII: one [ascii] per character), a [dict] iterated
    in insertion order is an association list, a call that may raise returns
    an [outcome]. Instants are integers counting microseconds, the resolution
    of [datetime]. Integers and instants are unbounded: the interpreter's
    limit on the length of a decimal conversion and the range of [datetime]
    are left out. *)

From Stdlib Require Import ZArith Lia Ascii String.
From stdpp Require Import base decidable list strings pretty sorting gmap.

Local Open Scope string_scope.
Local Open Scope Z_scope.

(** ** Python: exceptions, strings and integers *)

Module Py.

(** The exception classes that the modelled code can meet; every one of
    them derives from [Exception], so [except Exception] catches them all.
    [except ValueError] catches only the first. *)
Inductive exn : Type :=
| ValueError (msg : string)
| IndexError (msg : string)
| AttributeError (msg : string)
| OSError (msg : string)
| Exception (msg : string).

(** [str(e)] *)
Definition exn_message (e : exn) : string :=
  match e with
  | ValueError m | IndexError m | AttributeError m | OSError m | Exception m => m
  end.

Definition is_ValueError (e : exn) : bool :=
  match e with ValueError _ => true | _ => false end.

Inductive outcome (A : Type) : Type :=
| Return (a : A)
| Raise (e : exn).
Arguments Return {A} a.
Arguments Raise {A} e.

Definition bind {A B} (m : outcome A) (k : A → outcome B) : outcome B :=
  match m with
  | Return a => k a
  | Raise e => Raise e
  end.

(** [try: body  except Exception as e: handler(e)] *)
Definition try_except {A} (body : outcome A) (handler : exn → outcome A) : outcome A :=
  match body with
  | Return a => Return a
  | Raise e => handler e
  end.

Global Instance outcome_ret : MRet outcome := λ A a, Return a.
Global Instance outcome_bind : MBind outcome := λ A B k m, bind m k.
Global Instance outcome_fmap : FMap outcome := λ A B f m, bind m (λ a, Return (f a)).

Definition returns {A} (m : outcome A) : Prop := ∃ a, m = Return a.
Definition raises {A} (m : outcome A) : Prop := ∃ e, m = Raise e.

(** *** Characters *)

(** [c.isspace()] on ASCII: TAB, LF, VT, FF, CR, the separators FS GS RS US
    and the space. *)
Definition is_space (c : ascii) : bool :=
  let n := N_of_ascii c in
  ((9 <=? n) && (n <=? 13) || (28 <=? n) && (n <=? 32))%N.

(** The whitespace that [int] skips around an ASCII literal: TAB, LF, VT, FF,
    CR and the space, not the four separators. *)
Definition is_c_space (c : ascii) : bool :=
  let n := N_of_ascii c in
  ((9 <=? n) && (n <=? 13) || (n =? 32))%N.

Definition digit_of (c : ascii) : option Z :=
  let n := N_of_ascii c in
  if ((48 <=? n) && (n <=? 57))%N then Some (Z.of_N n - 48) else None.

Definition is_digit (c : ascii) : bool :=
  match digit_of c with Some _ => true | None => false end.

(** The characters of [str(n)] *)
Definition is_int_char (c : ascii) : bool := is_digit c || Ascii.eqb c "-".

Fixpoint string_forall (P : ascii → bool) (s : string) : bool :=
  match s with
  | EmptyString => true
  | String c s' => P c && string_forall P s'
  end.

(** [c not in s] *)
Definition lacks (c : ascii) (s : string) : bool :=
  string_forall (λ x, negb (Ascii.eqb x c)) s.

(** *** [str.split()] and [str.split(sep)] *)

(** [s.split()]: the maximal runs of non-whitespace characters, in order.
    [cur] is the run being read. *)
Fixpoint split_ws_go (cur : string) (s : string) : list string :=
  match s with
  | EmptyString => if String.eqb cur "" then [] else [cur]
  | String c s' =>
      if is_space c
      then (if String.eqb cur "" then split_ws_go "" s'
            else cur :: split_ws_go "" s')
      else split_ws_go (cur +:+ String c "") s'
  end.

Definition split_ws (s : string) : list string := split_ws_go "" s.

(** [s.split(sep)] for a one-character separator: never empty, and empty
    pieces are kept. *)
Fixpoint split_on (sep : ascii) (s : string) : list string :=
  match s with
  | EmptyString => [""]
  | String c s' =>
      if Ascii.eqb c sep then "" :: split_on sep s'
      else match split_on sep s' with
           | t :: ts => String c t :: ts
           | [] => [String c ""]
           end
  end.

(** [parts[i]] *)
Definition index {A} (l : list A) (i : nat) : outcome A :=
  match l !! i with
  | Some a => Return a
  | None => Raise (IndexError "list index out of range")
  end.

(** *** [int(s)] and [str(n)] *)

Fixpoint lstrip (s : string) : string :=
  match s with
  | EmptyString => ""
  | String c s' => if is_c_space c then lstrip s' else s
  end.

Fixpoint rstrip (s : string) : string :=
  match s with
  | EmptyString => ""
  | String c s' =>
      match rstrip s' with
      | EmptyString => if is_c_space c then "" else String c ""
      | t => String c t
      end
  end.

Definition strip (s : string) : string := rstrip (lstrip s).

(** The digits of a decimal literal, most significant first. A single
    underscore may separate two digits; [after_digit] tells whether the
    previous character was a digit. *)
Fixpoint int_digits (acc : Z) (after_digit : bool) (s : string) : option Z :=
  match s with
  | EmptyString => if after_digit then Some acc else None
  | String c s' =>
      match digit_of c with
      | Some d => int_digits (10 * acc + d) true s'
      | None =>
          if Ascii.eqb c "_" && after_digit then int_digits acc false s'
          else None
      end
  end.

Definition int_literal (s : string) : option Z :=
  match s with
  | String c s' =>
      if Ascii.eqb c "-" then Z.opp <$> int_digits 0 false s'
      else if Ascii.eqb c "+" then int_digits 0 false s'
      else int_digits 0 false s
  | EmptyString => None
  end.

(** [int(s)]: surrounding whitespace is dropped, then an optional sign and
    the digits; anything else is a [ValueError]. *)
Definition int (s : string) : outcome Z :=
  match int_literal (strip s) with
  | Some z => Return z
  | None => Raise (ValueError ("invalid literal for int() with base 10: '" +:+ s +:+ "'"))
  end.

(** [str(n)] for an [int] *)
Definition str (n : Z) : string := pretty n.

End Py.

Import Py.

(** ** app/database/models.py and the session *)

Module Models.

Record PDFDocument : Type := {
  doc_id : string;
  doc_filename : string;
  doc_original_filename : string;
  doc_created_at : Z;
}.

Record TextContent : Type := {
  text_document_id : string;
  text_page_number : Z;
  text_content : string;
}.

Record Image : Type := {
  image_document_id : string;
  image_page_number : Z;
  image_index : Z;
  image_filename : string;
}.

Record Table : Type := {
  table_document_id : string;
  table_page_number : Z;
  table_index : Z;
  table_data : string;
}.

(** The committed rows of the four tables. *)
Record Database : Type := {
  pdf_documents : list PDFDocument;
  text_contents : list TextContent;
  images : list Image;
  tables : list Table;
}.

(** A SQLAlchemy session ([autocommit=False, autoflush=False]): the
    database it is bound to and the objects handed to [db.add] that no
    [db.commit] has written yet. The operations modelled here add
    [TextContent] objects only. *)
Record Session : Type := {
  database : Database;
  pending : list TextContent;
}.

(** [db.add(text_content)] *)
Definition add (t : TextContent) (db : Session) : Session :=
  {| database := database db; pending := pending db ++ [t] |}.

(** [db.commit()]: every pending object becomes a row. *)
Definition commit (db : Session) : Session :=
  {| database :=
       {| pdf_documents := pdf_documents (database db);
          text_contents := text_contents (database db) ++ pending db;
          images := images (database db);
          tables := tables (database db) |};
     pending := [] |}.

(** [document.images]: the rows of [images] that reference the document. *)
Definition document_images (db : Database) (d : PDFDocument) : list Image :=
  filter (λ i, image_document_id i = doc_id d) (images db).



End Models.

Import Models.

(** ** app/database/repository.py *)

Module PDFRepository.

(** Modelled from the spec: the page label ["Page N"] under which the
    extraction routines, which are not among the sources here, hand over
    the text of page [N]. *)
Definition page_label (n : Z) : string := "Page " +:+ str n.

(** [int(page_key.split()[1])] *)
Definition page_number_of_key (page_key : string) : outcome Z :=
  token ← index (split_ws page_key) 1; int token.

(** The body of the [for] loop of [save_text_content], over the items of
    [text_data] in order. The session keeps what was added before a
    failure: nothing rolls it back. *)
Fixpoint add_text_contents (document_id : string) (items : list (string * string))
    (text_contents : list TextContent) (db : Session)
    : Session * outcome (list TextContent) :=
  match items with
  | [] => (db, Return text_contents)
  | (page_key, content) :: items' =>
      match page_number_of_key page_key with
      | Raise e => (db, Raise e)
      | Return page_number =>
          let text_content :=
            {| text_document_id := document_id;
               text_page_number := page_number;
               text_content := content |} in
          add_text_contents document_id items'
            (text_contents ++ [text_content]) (add text_content db)
      end
  end.

Definition save_text_content (db : Session) (document_id : string)
    (text_data : list (string * string)) : Session * outcome (list TextContent) :=
  match add_text_contents document_id text_data [] db with
  | (db', Return text_contents) => (commit db', Return text_contents)
  | (db', Raise e) => (db', Raise e)
  end.

(** The row that [save_text_content] builds for one item of [text_data] *)
Definition row_of_item (document_id : string) (item : string * string)
    (row : TextContent) : Prop :=
  page_number_of_key item.1 = Return (text_page_number row)
  ∧ text_content row = item.2
  ∧ text_document_id row = document_id.

(** [db.query(PDFDocument).filter(PDFDocument.id == document_id).first()] *)
Definition get_document (db : Session) (document_id : string) : option PDFDocument :=
  head (filter (λ d, doc_id d = document_id) (pdf_documents (database db))).

(** [ORDER BY created_at DESC] *)
Definition newer_or_same (a b : PDFDocument) : Prop :=
  doc_created_at b ≤ doc_created_at a.

Global Instance newer_or_same_dec a b : Decision (newer_or_same a b).
Proof. unfold newer_or_same. apply _. Defined.

(** What the database may answer to the ordered query: the rows, arranged
    so that no row comes before a newer one. The order of rows with the same
    [created_at] is the choice of the database, and may differ from one
    query to the next. *)
Definition newest_first (rows answer : list PDFDocument) : Prop :=
  answer ≡ₚ rows ∧ StronglySorted newer_or_same answer.

(** One such answer, computed: rows with the same [created_at] keep the
    order in which they are stored. *)
Definition order_by_created_at_desc (docs : list PDFDocument) : list PDFDocument :=
  merge_sort newer_or_same docs.

(** [db.query(PDFDocument).order_by(PDFDocument.created_at.desc())
       .offset(skip).limit(limit).all()]; [skip] and [limit] are row
    counts. *)
Definition list_documents (db : Session) (skip limit : nat) : list PDFDocument :=
  take limit (drop skip (order_by_created_at_desc (pdf_documents (database db)))).

End PDFRepository.

(** ** app/utils/file_utils.py *)

Module FileUtils.

Definition parse_image_filename (filename : string) : outcome (string * Z * Z) :=
  let parts := split_on "_" filename in
  document_id ← index parts 0;
  page_field ← index parts 2;
  page_num ← int page_field;
  image_field ← index parts 4;
  index_field ← index (split_on "." image_field) 0;
  img_index ← int index_field;
  mret (document_id, page_num, img_index).

(** The format named by the docstring of [parse_image_filename]:
    [{document_id}_page_{page_num}_image_{img_index}.{ext}] *)
Definition image_filename (document_id : string) (page_num img_index : Z)
    (ext : string) : string :=
  document_id +:+ "_page_" +:+ str page_num +:+ "_image_" +:+ str img_index
    +:+ "." +:+ ext.

End FileUtils.

(** ** app/config.py *)

Module Config.

Record Settings : Type := {
  UPLOAD_FOLDER : string;
  IMAGE_FOLDER : string;
  FILE_RETENTION_MINUTES : Z;
}.

(** [FILE_RETENTION_MINUTES: int = 10]: the value found in the
    configuration, or the class default. *)
Definition Settings_new (upload_folder image_folder : string)
    (configured_retention : option Z) : Settings :=
  {| UPLOAD_FOLDER := upload_folder;
     IMAGE_FOLDER := image_folder;
     FILE_RETENTION_MINUTES := default 10 configured_retention |}.

End Config.

Import Config.

(** ** app/workers/file_cleanup.py *)

Module FileCleanup.

(** *** The logger *)

Inductive level : Type := INFO | WARNING | ERROR.

Definition logger : Type := list (level * string).

Definition emit (lv : level) (msg : string) (log : logger) : logger :=
  (log ++ [(lv, msg)])%list.

(** *** The scheduler (APScheduler's [BackgroundScheduler])

    [start] and [shutdown] refuse to run in the wrong state, as the
    library's do. [start] takes the pending jobs into the job store, which
    gives each its next run time; [shutdown] empties the job store, which is
    the one in memory. [start_calls] and [shutdown_calls] count the calls
    that reached the scheduler. [get_job_fault] and [get_jobs_fault] are the
    exceptions with which the two job lookups fail, if they do. [first_fire]
    is the instant that the trigger of a job answers when the job store asks
    it for the first run. *)

Record Job : Type := {
  job_id : string;
  job_name : string;
  next_run_time : option Z;
}.

Record Scheduler : Type := {
  running : bool;
  jobs : list Job;
  start_calls : nat;
  shutdown_calls : nat;
  get_job_fault : option exn;
  get_jobs_fault : option exn;
  first_fire : Z;
}.

Definition BackgroundScheduler : Scheduler :=
  {| running := false; jobs := []; start_calls := 0%nat;
     shutdown_calls := 0%nat; get_job_fault := None;
     get_jobs_fault := None; first_fire := 0 |}.

(** The job as the job store keeps it: with its next run time. *)
Definition scheduled (first_fire : Z) (j : Job) : Job :=
  {| job_id := job_id j; job_name := job_name j;
     next_run_time := Some first_fire |}.

(** [add_job(..., replace_existing=True)]: a stopped scheduler keeps the job
    pending, a running one puts it into the job store. *)
Definition add_job (j : Job) (s : Scheduler) : Scheduler :=
  {| running := running s;
     jobs := filter (λ j', job_id j' ≠ job_id j) (jobs s)
             ++ [if running s then scheduled (first_fire s) j else j];
     start_calls := start_calls s;
     shutdown_calls := shutdown_calls s;
     get_job_fault := get_job_fault s;
     get_jobs_fault := get_jobs_fault s;
     first_fire := first_fire s |}.

Definition scheduler_start (s : Scheduler) : outcome Scheduler :=
  if running s then Raise (Exception "Scheduler is already running")
  else Return {| running := true;
                 jobs := scheduled (first_fire s) <$> jobs s;
                 start_calls := S (start_calls s);
                 shutdown_calls := shutdown_calls s;
                 get_job_fault := get_job_fault s;
                 get_jobs_fault := get_jobs_fault s;
                 first_fire := first_fire s |}.

Definition scheduler_shutdown (s : Scheduler) : outcome Scheduler :=
  if running s
  then Return {| running := false; jobs := [];
                 start_calls := start_calls s;
                 shutdown_calls := S (shutdown_calls s);
                 get_job_fault := get_job_fault s;
                 get_jobs_fault := get_jobs_fault s;
                 first_fire := first_fire s |}
  else Raise (Exception "Scheduler is not running").

Definition get_job (s : Scheduler) (id : string) : outcome (option Job) :=
  match get_job_fault s with
  | Some e => Raise e
  | None => Return (head (filter (λ j, job_id j = id) (jobs s)))
  end.

Definition get_jobs (s : Scheduler) : outcome (list Job) :=
  match get_jobs_fault s with
  | Some e => Raise e
  | None => Return (jobs s)
  end.

(** *** The worker *)

Record FileCleanupWorker : Type := {
  retention_minutes : Z;
  scheduler : Scheduler;
  trigger_minutes : Z;
}.

Definition cleanup_job : Job :=
  {| job_id := "cleanup_old_files";
     job_name := "Cleanup old PDF files and images";
     next_run_time := None |}.

(** [FileCleanupWorker.__init__]; [new_scheduler] is what
    [BackgroundScheduler()] gives at this call. *)
Definition init (new_scheduler : outcome Scheduler) (retention_minutes : Z)
    (log : logger) : logger * outcome FileCleanupWorker :=
  let log := emit INFO ("Initializing file cleanup worker with retention period: "
                        +:+ str retention_minutes +:+ " minutes") log in
  match new_scheduler with
  | Raise e => (log, Raise e)
  | Return s =>
      (log, Return {| retention_minutes := retention_minutes;
                      scheduler := add_job cleanup_job s;
                      trigger_minutes := 1 |})
  end.

Definition with_scheduler (self : FileCleanupWorker) (s : Scheduler) : FileCleanupWorker :=
  {| retention_minutes := retention_minutes self;
     scheduler := s;
     trigger_minutes := trigger_minutes self |}.

Definition start (self : FileCleanupWorker) (log : logger)
    : logger * outcome FileCleanupWorker :=
  if negb (running (scheduler self)) then
    let log := emit INFO "Starting file cleanup worker" log in
    (log, s ← scheduler_start (scheduler self); mret (with_scheduler self s))
  else (log, Return self).

Definition stop (self : FileCleanupWorker) (log : logger)
    : logger * outcome FileCleanupWorker :=
  if running (scheduler self) then
    let log := emit INFO "Stopping file cleanup worker" log in
    (log, s ← scheduler_shutdown (scheduler self); mret (with_scheduler self s))
  else (log, Return self).

(** *** The sweep *)

(** [os.path.join(a, p)] on POSIX *)
Definition starts_with_slash (p : string) : bool :=
  match p with String "/" _ => true | _ => false end.

Fixpoint ends_with_slash (a : string) : bool :=
  match a with
  | EmptyString => false
  | String c EmptyString => Ascii.eqb c "/"
  | String _ a' => ends_with_slash a'
  end.

Definition path_join (a p : string) : string :=
  if starts_with_slash p then p
  else if String.eqb a "" || ends_with_slash a then a +:+ p
  else a +:+ "/" +:+ p.

(** What the sweep sees and changes: the rows, the paths that exist on
    disk, the log. *)
Record World : Type := {
  db : Database;
  fs : gset string;
  log : logger;
}.

Definition log_to (lv : level) (msg : string) (w : World) : World :=
  {| db := db w; fs := fs w; log := emit lv msg (log w) |}.

(** The calls of one sweep that can fail, with the exception each one
    raises when it does. *)
Record Faults : Type := {
  session_fault : option exn;            (* SessionLocal() *)
  query_fault : option exn;              (* db.query(...).filter(...).all() *)
  images_fault : string → option exn;    (* document.images, by document id *)
  close_fault : option exn;              (* db.close() *)
  remove_fault : string → option exn;    (* os.remove(path) *)
}.

Definition no_faults : Faults :=
  {| session_fault := None; query_fault := None; images_fault := λ _, None;
     close_fault := None; remove_fault := λ _, None |}.

Definition os_path_exists (path : string) (w : World) : bool :=
  bool_decide (path ∈ fs w).

Definition os_remove (ft : Faults) (path : string) (w : World) : World * outcome unit :=
  match remove_fault ft path with
  | Some e => (w, Raise e)
  | None =>
      if os_path_exists path w
      then ({| db := db w; fs := fs w ∖ {[path]}; log := log w |}, Return ())
      else (w, Raise (OSError ("[Errno 2] No such file or directory: '" +:+ path +:+ "'")))
  end.

(** The three log lines of a deletion attempt, for the PDF and for an
    image. *)
Record Wording : Type := {
  deleted : string;
  not_found : string;
  failed : string;
}.

Definition pdf_wording : Wording :=
  {| deleted := "Deleted PDF file: ";
     not_found := "PDF file not found for deletion: ";
     failed := "Error deleting PDF file " |}.

Definition image_wording : Wording :=
  {| deleted := "Deleted image file: ";
     not_found := "Image file not found for deletion: ";
     failed := "Error deleting image file " |}.

(** [try: if os.path.exists(p): os.remove(p); info else: warning
    except Exception as e: error] *)
Definition delete_file (wd : Wording) (ft : Faults) (path : string) (w : World) : World :=
  let attempt : World * outcome unit :=
    if os_path_exists path w then
      match os_remove ft path w with
      | (w', Return _) => (log_to INFO (deleted wd +:+ path) w', Return ())
      | (w', Raise e) => (w', Raise e)
      end
    else (log_to WARNING (not_found wd +:+ path) w, Return ()) in
  match attempt with
  | (w', Return _) => w'
  | (w', Raise e) => log_to ERROR (failed wd +:+ path +:+ ": " +:+ exn_message e) w'
  end.

Definition pdf_path (settings : Settings) (d : PDFDocument) : string :=
  path_join (UPLOAD_FOLDER settings) (doc_filename d).

Definition image_path (settings : Settings) (i : Image) : string :=
  path_join (IMAGE_FOLDER settings) (image_filename i).

Definition load_images (ft : Faults) (d : PDFDocument) (w : World) : outcome (list Image) :=
  match images_fault ft (doc_id d) with
  | Some e => Raise e
  | None => Return (document_images (db w) d)
  end.

Definition delete_images (ft : Faults) (settings : Settings) (imgs : list Image)
    (w : World) : World :=
  foldl (λ w i, delete_file image_wording ft (image_path settings i) w) w imgs.

(** The body of [for document in old_documents] *)
Definition cleanup_document (ft : Faults) (settings : Settings) (d : PDFDocument)
    (w : World) : World * outcome unit :=
  let w := log_to INFO ("Cleaning up document: " +:+ doc_id d) w in
  let w := delete_file pdf_wording ft (pdf_path settings d) w in
  match load_images ft d w with
  | Raise e => (w, Raise e)
  | Return imgs => (delete_images ft settings imgs w, Return ())
  end.

Fixpoint cleanup_documents (ft : Faults) (settings : Settings)
    (docs : list PDFDocument) (w : World) : World * outcome unit :=
  match docs with
  | [] => (w, Return ())
  | d :: docs' =>
      match cleanup_document ft settings d w with
      | (w', Return _) => cleanup_documents ft settings docs' w'
      | (w', Raise e) => (w', Raise e)
      end
  end.

(** [timedelta(minutes=m)] in microseconds *)
Definition minutes (m : Z) : Z := m * 60000000.

Definition retention_threshold (self : FileCleanupWorker) (now : Z) : Z :=
  now - minutes (retention_minutes self).

(** [db.query(PDFDocument).filter(PDFDocument.created_at < threshold).all()] *)
Definition old_documents (database : Database) (threshold : Z) : list PDFDocument :=
  filter (λ d, doc_created_at d < threshold) (pdf_documents database).

(** How a block ends when it does not raise: by [return], or by reaching
    its end. *)
Inductive flow : Type := Returned | Completed.

(** The block under the inner [try] *)
Definition cleanup_session (ft : Faults) (settings : Settings) (threshold : Z)
    (w : World) : World * outcome flow :=
  match query_fault ft with
  | Some e => (w, Raise e)
  | None =>
      let found := old_documents (db w) threshold in
      match found with
      | [] => (log_to INFO "No old documents found for cleanup" w, Return Returned)
      | _ =>
          let w := log_to INFO ("Found " +:+ str (Z.of_nat (length found))
                                +:+ " old documents to clean up") w in
          match cleanup_documents ft settings found w with
          | (w', Return _) => (w', Return Completed)
          | (w', Raise e) => (w', Raise e)
          end
      end
  end.

(** [finally: db.close()]: an exception of [close] replaces whatever the
    block did. *)
Definition finally_close {A} (ft : Faults) (r : World * outcome A) : World * outcome A :=
  match close_fault ft with
  | Some e => (r.1, Raise e)
  | None => r
  end.

(** The block under the outer [try] *)
Definition cleanup_body (self : FileCleanupWorker) (ft : Faults) (settings : Settings)
    (now : Z) (w : World) : World * outcome unit :=
  let w := log_to INFO "Running file cleanup task" w in
  let threshold := retention_threshold self now in
  match session_fault ft with
  | Some e => (w, Raise e)
  | None =>
      match finally_close ft (cleanup_session ft settings threshold w) with
      | (w', Return Returned) => (w', Return ())
      | (w', Return Completed) => (log_to INFO "File cleanup task completed" w', Return ())
      | (w', Raise e) => (w', Raise e)
      end
  end.

Definition cleanup_old_files (self : FileCleanupWorker) (ft : Faults)
    (settings : Settings) (now : Z) (w : World) : World * outcome unit :=
  match cleanup_body self ft settings now w with
  | (w', Return _) => (w', Return ())
  | (w', Raise e) =>
      (log_to ERROR ("Error in file cleanup task: " +:+ exn_message e) w', Return ())
  end.

(** *** Construction of the single instance (module level)

    [settings] always carries [FILE_RETENTION_MINUTES], so the default of
    [getattr] is not reached. [env_retention] is
    [os.environ.get('FILE_RETENTION_MINUTES')]; [first] and [second] are
    what [BackgroundScheduler()] gives to the constructor call of the [try]
    block and to the one of the handler. *)

Definition truthy (s : option string) : option string :=
  match s with
  | Some s => if String.eqb s "" then None else Some s
  | None => None
  end.

Definition configured_retention (settings : Settings) (env_retention : option string)
    : outcome Z :=
  let retention_minutes := FILE_RETENTION_MINUTES settings in
  match truthy env_retention with
  | Some s =>
      match int s with
      | Return n => Return n
      | Raise e => if is_ValueError e then Return retention_minutes else Raise e
      end
  | None => Return retention_minutes
  end.

Definition file_cleanup_worker (settings : Settings) (env_retention : option string)
    (first second : outcome Scheduler) (log : logger)
    : logger * outcome FileCleanupWorker :=
  let attempt : logger * outcome FileCleanupWorker :=
    match configured_retention settings env_retention with
    | Return retention_minutes => init first retention_minutes log
    | Raise e => (log, Raise e)
    end in
  match attempt with
  | (log, Return worker) => (log, Return worker)
  | (log, Raise e) =>
      let log := emit ERROR ("Error initializing file cleanup worker: "
                             +:+ exn_message e) log in
      init second 10 log
  end.

End FileCleanup.

Import FileCleanup.

(** ** app/controllers/worker_controller.py *)

Module WorkerController.

(** The inner dictionary of the response *)
Record WorkerStatus : Type := {
  status_running : bool;
  status_retention_minutes : Z;
  status_next_run : option string;
  status_job_count : nat;
}.

Section get_worker_status.

(** [datetime.isoformat] *)
Variable isoformat : Z → string.

(** [scheduler.get_job("cleanup_old_files").next_run_time.isoformat()] *)
Definition next_run_of (s : Scheduler) : outcome string :=
  job ← get_job s "cleanup_old_files";
  match job with
  | None => Raise (AttributeError "'NoneType' object has no attribute 'next_run_time'")
  | Some j =>
      match next_run_time j with
      | None => Raise (AttributeError "'NoneType' object has no attribute 'isoformat'")
      | Some t => Return (isoformat t)
      end
  end.

Definition get_worker_status (file_cleanup_worker : FileCleanupWorker)
    : outcome WorkerStatus :=
  let s := scheduler file_cleanup_worker in
  let running := running s in
  let retention := retention_minutes file_cleanup_worker in
  next_run ← (if FileCleanup.running s then Some <$> next_run_of s
              else Return None);
  all_jobs ← get_jobs s;
  mret {| status_running := running;
          status_retention_minutes := retention;
          status_next_run := next_run;
          status_job_count := length all_jobs |}.

End get_worker_status.

End WorkerController.

Import WorkerController.

(** ** What a sweep leaves behind *)

Module Sweep.

(** One of the three log lines of a deletion attempt on [path] is in the
    log. *)
Definition attempted (wd : Wording) (path : string) (l : logger) : Prop :=
  (INFO, deleted wd +:+ path) ∈ l
  ∨ (WARNING, not_found wd +:+ path) ∈ l
  ∨ ∃ e, (ERROR, failed wd +:+ path +:+ ": " +:+ exn_message e) ∈ l.

(** The deletion of [path] was attempted, and the path is gone unless
    [os.remove] fails on it. *)
Definition handled (ft : Faults) (wd : Wording) (path : string) (w : World) : Prop :=
  attempted wd path (log w)
  ∧ (remove_fault ft path = None → path ∉ fs w).


(** [w'] comes after [w] in a sweep: same rows, no new file, a longer
    log. *)
Definition evolves (w w' : World) : Prop :=
  db w' = db w ∧ fs w' ⊆ fs w ∧ ∀ r, r ∈ log w → r ∈ log w'.

(** The paths of the backing files of a document *)
Definition document_paths (settings : Settings) (database : Database)
    (d : PDFDocument) : list string :=
  pdf_path settings d :: (image_path settings <$> document_images database d).

(** Every path that is on disk in [w] and no longer in [w'] satisfies [P]. *)
Definition removes_only (P : string → Prop) (w w' : World) : Prop :=
  ∀ path, path ∈ fs w → path ∉ fs w' → P path.

End Sweep.

Import Sweep.

(** ** Sample data *)

Module Samples.

(** 2023-01-01 12:00:00 UTC *)
Definition now : Z := 1672574400000000.

Definition settings : Settings :=
  Settings_new "/app/uploads/pdfs" "/app/uploads/images" None.

Definition settings_30 : Settings :=
  Settings_new "/app/uploads/pdfs" "/app/uploads/images" (Some 30).

Definition old_doc : PDFDocument :=
  {| doc_id := "old-doc-id"; doc_filename := "test.pdf";
     doc_original_filename := "report.pdf";
     doc_created_at := now - minutes 20 |}.

Definition older_doc : PDFDocument :=
  {| doc_id := "older-doc-id"; doc_filename := "scan.pdf";
     doc_original_filename := "scan.pdf";
     doc_created_at := now - minutes 45 |}.

Definition boundary_doc : PDFDocument :=
  {| doc_id := "boundary-doc-id"; doc_filename := "edge.pdf";
     doc_original_filename := "edge.pdf";
     doc_created_at := now - minutes 10 |}.

Definition recent_doc : PDFDocument :=
  {| doc_id := "recent-doc-id"; doc_filename := "new.pdf";
     doc_original_filename := "new.pdf";
     doc_created_at := now - minutes 5 |}.

Definition old_image : Image :=
  {| image_document_id := "old-doc-id"; image_page_number := 0;
     image_index := 1; image_filename := "old-doc-id_page_0_image_1.png" |}.

Definition old_text : TextContent :=
  {| text_document_id := "old-doc-id"; text_page_number := 1;
     text_content := "Test text content" |}.

Definition rows : Database :=
  {| pdf_documents := [recent_doc; old_doc; boundary_doc; older_doc];
     text_contents := [old_text];
     images := [old_image];
     tables := [] |}.

Definition session : Session := {| database := rows; pending := [] |}.

Definition worker_10 : FileCleanupWorker :=
  {| retention_minutes := 10;
     scheduler := add_job cleanup_job BackgroundScheduler;
     trigger_minutes := 1 |}.

(** Every backing file is on disk. *)
Definition files_present : World :=
  {| db := rows;
     fs := {[ "/app/uploads/pdfs/test.pdf"; "/app/uploads/pdfs/scan.pdf";
              "/app/uploads/pdfs/edge.pdf"; "/app/uploads/pdfs/new.pdf";
              "/app/uploads/images/old-doc-id_page_0_image_1.png" ]};
     log := [] |}.

(** No backing file is on disk. *)
Definition files_missing : World := {| db := rows; fs := ∅; log := [] |}.


(** The load of [document.images] fails for [old_doc], the first document
    of the selection, and for no other. *)
Definition load_fails : Faults :=
  {| session_fault := None; query_fault := None;
     images_fault := λ id,
       if String.eqb id "old-doc-id"
       then Some (Exception "server closed the connection unexpectedly")
       else None;
     close_fault := None; remove_fault := λ _, None |}.

(** [SessionLocal()] raises, as in [test_file_cleanup_worker_error_handling]. *)
Definition database_down : Faults :=
  {| session_fault := Some (Exception "Database error"); query_fault := None;
     images_fault := λ _, None; close_fault := None; remove_fault := λ _, None |}.

(** The scheduler of [test_get_worker_status_error_handling]: running, and
    its job lookups raise. *)
Definition worker_lookup_fails : FileCleanupWorker :=
  {| retention_minutes := 10;
     scheduler := {| running := true; jobs := [cleanup_job]; start_calls := 1%nat;
                     shutdown_calls := 0%nat;
                     get_job_fault := Some (Exception "Unexpected error");
                     get_jobs_fault := None; first_fire := 0 |};
     trigger_minutes := 1 |}.

(** The scheduler of [test_get_worker_status_not_running] *)
Definition worker_not_initialized : FileCleanupWorker :=
  {| retention_minutes := 10;
     scheduler := {| running := false; jobs := []; start_calls := 0%nat;
                     shutdown_calls := 0%nat;
                     get_job_fault := Some (Exception "Worker not initialized");
                     get_jobs_fault := None; first_fire := 0 |};
     trigger_minutes := 1 |}.

Definition text_data_good : list (string * string) :=
  [("Page 1", "Test text content"); ("Page 2", "More text")].

Definition text_data_bad : list (string * string) :=
  [("Page 1", "Test text content"); ("Page two", "More text")].

End Samples.

(** ** app/utils/file_utils.py and app/database/repository.py, continued *)

Module Upload.

(** [os.path.basename(p)]: what follows the last slash of [p]. *)
Definition basename (p : string) : string := default "" (last (split_on "/" p)).

(** [s.count(c)] *)
Fixpoint count_char (c : ascii) (s : string) : nat :=
  match s with
  | EmptyString => 0%nat
  | String x s' => if Ascii.eqb x c then S (count_char c s') else count_char c s'
  end.

(** [FileInfo(filename=..., path=...)]: the two fields that
    [save_upload_file] fills and [create_document] reads (the class is
    declared in app/models/schemas.py). *)
Record FileInfo : Type := {
  info_filename : string;
  info_path : string;
}.

(** [save_upload_file(file)], on the paths that exist on disk. [open] creates
    the file; [open_fault] and [copy_fault] are the exceptions with which
    [open(file_path, "wb")] and [shutil.copyfileobj] fail, if they do. The
    content of files is not part of the model. *)
Definition save_upload_file (settings : Settings) (file_filename : string)
    (open_fault copy_fault : option exn) (disk : gset string)
    : gset string * outcome FileInfo :=
  let file_path := path_join (UPLOAD_FOLDER settings) file_filename in
  match open_fault with
  | Some e => (disk, Raise e)
  | None =>
      let disk := disk ∪ {[file_path]} in
      match copy_fault with
      | Some e => (disk, Raise e)
      | None => (disk, Return {| info_filename := file_filename;
                                 info_path := file_path |})
      end
  end.

(** [PDFRepository.create_document(db, file_info)]. [uuid] is
    [str(uuid.uuid4())] and [now] the instant that the server default of
    [created_at] gives. [db.commit()] writes the new row together with
    whatever is pending; the primary key refuses an id that is already
    stored, and what the session holds after that is not modelled. *)
Definition create_document (db : Session) (file_info : FileInfo) (uuid : string)
    (now : Z) : outcome (Session * PDFDocument) :=
  let db_document :=
    {| doc_id := uuid;
       doc_filename := basename (info_path file_info);
       doc_original_filename := info_filename file_info;
       doc_created_at := now |} in
  if bool_decide (uuid ∈ doc_id <$> pdf_documents (database db))
  then Raise (Exception "IntegrityError: duplicate key value violates unique constraint")
  else
    let db := commit db in
    Return ({| database :=
                 {| pdf_documents := pdf_documents (database db) ++ [db_document];
                    text_contents := text_contents (database db);
                    images := images (database db);
                    tables := tables (database db) |};
               pending := pending db |},
            db_document).

End Upload.

Import Upload.

(** ** What a sweep writes to the log *)

Module Logging.

(** Every line of the log of [w'] that is not in the log of [w] is below
    the level [ERROR]. *)
Definition adds_no_error (w w' : World) : Prop :=
  ∀ r, r ∈ log w' → r ∈ log w ∨ r.1 ≠ ERROR.

End Logging.

Import Logging.

(** * Properties *)

(** ** Strings and integers *)

Section string_facts.

Lemma app_cons_str c (s t : string) : String c s +:+ t = String c (s +:+ t).
Proof. reflexivity. Qed.

Lemma app_empty_l (s : string) : "" +:+ s = s.
Proof. reflexivity. Qed.

Lemma app_empty_r (s : string) : s +:+ "" = s.
Proof. induction s as [|c s IH]; [done | by rewrite app_cons_str, IH]. Qed.

Lemma app_assoc_str (a b c : string) : (a +:+ b) +:+ c = a +:+ (b +:+ c).
Proof. induction a as [|x a IH]; [done | by rewrite !app_cons_str, IH]. Qed.

Lemma string_forall_app P (a b : string) :
  string_forall P (a +:+ b) = string_forall P a && string_forall P b.
Proof.
  induction a as [|c a IH]; [done|].
  rewrite app_cons_str. simpl. rewrite IH. by destruct (P c).
Qed.

Lemma string_forall_impl (P Q : ascii → bool) (s : string) :
  (∀ c, P c = true → Q c = true) →
  string_forall P s = true → string_forall Q s = true.
Proof.
  intros HPQ. induction s as [|c s IH]; simpl; [done|].
  intros [Hc Hs]%andb_prop. rewrite (HPQ _ Hc). simpl. auto.
Qed.

(** Pieces without the separator are not cut. *)
Lemma split_on_whole sep (a : string) :
  string_forall (λ c, negb (Ascii.eqb c sep)) a = true →
  split_on sep a = [a].
Proof.
  induction a as [|c a IH]; simpl; [done|].
  intros [Hc Ha]%andb_prop. apply negb_true_iff in Hc. rewrite Hc.
  by rewrite (IH Ha).
Qed.

Lemma split_on_cons sep (a b : string) :
  string_forall (λ c, negb (Ascii.eqb c sep)) a = true →
  split_on sep (a +:+ String sep b) = a :: split_on sep b.
Proof.
  induction a as [|c a IH].
  - intros _. rewrite app_empty_l. simpl. by rewrite Ascii.eqb_refl.
  - rewrite app_cons_str. simpl.
    intros [Hc Ha]%andb_prop. apply negb_true_iff in Hc. rewrite Hc.
    by rewrite (IH Ha).
Qed.

(** The first piece of a split is the text up to the first separator. *)
Lemma split_on_head sep (a b : string) :
  string_forall (λ c, negb (Ascii.eqb c sep)) a = true →
  head (split_on sep (a +:+ String sep b)) = Some a.
Proof. intros Ha. by rewrite split_on_cons. Qed.

Lemma eqb_empty_app (cur : string) c : String.eqb (cur +:+ String c "") "" = false.
Proof. by destruct cur. Qed.

(** A run without whitespace is read into the current token. *)
Lemma split_ws_go_run (t : string) : ∀ cur s,
  string_forall (λ c, negb (is_space c)) t = true →
  split_ws_go cur (t +:+ s) = split_ws_go (cur +:+ t) s.
Proof.
  induction t as [|c t IH]; intros cur s.
  - intros _. by rewrite app_empty_r.
  - cbn [string_forall]. intros [Hc Ht]%andb_prop. apply negb_true_iff in Hc.
    rewrite app_cons_str.
    cbn [split_ws_go]. rewrite Hc, (IH _ _ Ht), app_assoc_str. done.
Qed.

Lemma lstrip_id (s : string) :
  string_forall (λ c, negb (is_c_space c)) s = true → lstrip s = s.
Proof.
  destruct s as [|c s]; simpl; [done|].
  intros [Hc _]%andb_prop. apply negb_true_iff in Hc. by rewrite Hc.
Qed.

Lemma rstrip_id (s : string) :
  string_forall (λ c, negb (is_c_space c)) s = true → rstrip s = s.
Proof.
  induction s as [|c s IH]; simpl; [done|].
  intros [Hc Hs]%andb_prop. apply negb_true_iff in Hc.
  rewrite (IH Hs), Hc. by destruct s.
Qed.

Lemma strip_id (s : string) :
  string_forall (λ c, negb (is_c_space c)) s = true → strip s = s.
Proof. intros Hs. unfold strip. rewrite (lstrip_id _ Hs). by apply rstrip_id. Qed.

Lemma digit_of_pretty_N_char (x : N) :
  (x < 10)%N → digit_of (pretty_N_char x) = Some (Z.of_N x).
Proof.
  intros Hx.
  assert (x = 0 ∨ x = 1 ∨ x = 2 ∨ x = 3 ∨ x = 4 ∨ x = 5 ∨ x = 6
          ∨ x = 7 ∨ x = 8 ∨ x = 9)%N as Hcases by lia.
  repeat destruct Hcases as [-> | Hcases]; try subst x; reflexivity.
Qed.

Lemma is_digit_pretty_N_char (x : N) : is_digit (pretty_N_char x) = true.
Proof. unfold pretty_N_char. by repeat case_match. Qed.

(** Reading the digits that [pretty] wrote gives the number back. *)
Lemma int_digits_pretty_N_go (x : N) : ∀ s,
  (0 < x)%N →
  int_digits 0 false (pretty_N_go x s) = int_digits (Z.of_N x) true s.
Proof.
  induction (N.lt_wf_0 x) as [x _ IH]; intros s Hx.
  rewrite pretty_N_go_step by done.
  destruct (N.eq_0_gt_0_cases (x `div` 10)) as [Hq | Hq].
  - rewrite Hq, pretty_N_go_0. simpl.
    assert (x < 10)%N as Hlt by (apply N.div_small_iff in Hq; lia).
    rewrite N.mod_small by done.
    by rewrite digit_of_pretty_N_char.
  - rewrite IH by (try apply N.div_lt; lia). simpl.
    rewrite digit_of_pretty_N_char by (apply N.mod_lt; lia).
    f_equal. rewrite (N.div_mod x 10) at 3 by done. lia.
Qed.

Lemma pretty_N_go_digits (x : N) : ∀ s,
  string_forall is_digit s = true →
  string_forall is_digit (pretty_N_go x s) = true.
Proof.
  induction (N.lt_wf_0 x) as [x _ IH]; intros s Hs.
  assert (x = 0 ∨ 0 < x)%N as [-> | Hx] by lia.
  - by rewrite pretty_N_go_0.
  - rewrite pretty_N_go_step by done. apply IH.
    + apply N.div_lt; lia.
    + simpl. by rewrite is_digit_pretty_N_char.
Qed.

Lemma pretty_pos_unfold (p : positive) : pretty (Z.pos p) = pretty_N_go (N.pos p) "".
Proof. reflexivity. Qed.

Lemma pretty_neg_unfold (p : positive) :
  pretty (Z.neg p) = String "-" (pretty_N_go (N.pos p) "").
Proof. reflexivity. Qed.

Lemma str_chars (z : Z) : string_forall is_int_char (str z) = true.
Proof.
  assert (∀ p, string_forall is_int_char (pretty_N_go (N.pos p) "") = true) as Hp.
  { intros p. apply (string_forall_impl is_digit).
    - intros c Hc. unfold is_int_char. by rewrite Hc.
    - by apply pretty_N_go_digits. }
  unfold str. destruct z as [|p|p].
  - reflexivity.
  - rewrite pretty_pos_unfold. apply Hp.
  - rewrite pretty_neg_unfold. simpl. apply Hp.
Qed.

Lemma is_digit_not_sign (c : ascii) :
  is_digit c = true → Ascii.eqb c "-" = false ∧ Ascii.eqb c "+" = false.
Proof.
  intros Hc. split.
  - destruct (Ascii.eqb_spec c "-") as [-> |]; [discriminate | done].
  - destruct (Ascii.eqb_spec c "+") as [-> |]; [discriminate | done].
Qed.

Lemma int_literal_digits (s : string) :
  string_forall is_digit s = true → int_literal s = int_digits 0 false s.
Proof.
  destruct s as [|c s]; [done|]. cbn [string_forall].
  intros [Hc _]%andb_prop. unfold int_literal.
  by destruct (is_digit_not_sign c Hc) as [-> ->].
Qed.

Lemma int_literal_str (z : Z) : int_literal (str z) = Some z.
Proof.
  unfold str. destruct z as [|p|p].
  - reflexivity.
  - rewrite pretty_pos_unfold, int_literal_digits by by apply pretty_N_go_digits.
    by rewrite int_digits_pretty_N_go.
  - rewrite pretty_neg_unfold. cbn [int_literal]. rewrite Ascii.eqb_refl.
    by rewrite int_digits_pretty_N_go.
Qed.

Lemma is_int_char_not_space (c : ascii) :
  is_int_char c = true → negb (is_space c) = true.
Proof. destruct c as [[] [] [] [] [] [] [] []]; by vm_compute. Qed.

Lemma is_int_char_not_sep (sep c : ascii) :
  is_int_char sep = false → is_int_char c = true → negb (Ascii.eqb c sep) = true.
Proof.
  intros Hsep Hc. destruct (Ascii.eqb_spec c sep) as [-> |]; [congruence | done].
Qed.

Lemma is_c_space_is_space (c : ascii) : is_c_space c = true → is_space c = true.
Proof. destruct c as [[] [] [] [] [] [] [] []]; by vm_compute. Qed.

Lemma str_no_c_space (z : Z) : string_forall (λ c, negb (is_c_space c)) (str z) = true.
Proof.
  eapply string_forall_impl; [|apply str_chars].
  intros c Hc%is_int_char_not_space. apply negb_true_iff in Hc. apply negb_true_iff.
  destruct (is_c_space c) eqn:Hsp; [|done].
  apply is_c_space_is_space in Hsp. congruence.
Qed.

Lemma str_no_space (z : Z) : string_forall (λ c, negb (is_space c)) (str z) = true.
Proof. eapply string_forall_impl; [apply is_int_char_not_space | apply str_chars]. Qed.

Lemma str_no_sep (sep : ascii) (z : Z) :
  is_int_char sep = false →
  string_forall (λ c, negb (Ascii.eqb c sep)) (str z) = true.
Proof.
  intros Hsep. eapply string_forall_impl; [|apply str_chars].
  intros c. by apply is_int_char_not_sep.
Qed.

Example split_ws_sample : split_ws "  Page   12 " = ["Page"; "12"].
Proof. reflexivity. Qed.

Example split_on_sample : split_on "_" "a__b_" = ["a"; ""; "b"; ""].
Proof. reflexivity. Qed.

Example int_sample :
  int " -1_000 " = Return (-1000) ∧ int "+7" = Return 7
  ∧ raises (int "1__0") ∧ raises (int "_1") ∧ raises (int "")
  ∧ raises (int "30.0") ∧ raises (int "- 3").
Proof. repeat split; try reflexivity; eexists; reflexivity. Qed.

Example str_sample : str 120 = "120" ∧ str (-7) = "-7" ∧ str 0 = "0".
Proof. repeat split; reflexivity. Qed.

(** [int(str(n)) == n] *)
Lemma int_str (z : Z) : int (str z) = Return z.
Proof.
  unfold int. rewrite strip_id by apply str_no_c_space.
  by rewrite int_literal_str.
Qed.

End string_facts.

(** ** Image filenames *)

Section image_filenames.

Import FileUtils.

Lemma image_filename_shape (document_id ext : string) (n i : Z) :
  image_filename document_id n i ext
  = document_id +:+ String "_" ("page" +:+ String "_" (str n +:+ String "_"
      ("image" +:+ String "_" ((str i +:+ String "." ext))))).
Proof.
  reflexivity.
Qed.

Lemma lacks_app c (a b : string) : lacks c (a +:+ b) = lacks c a && lacks c b.
Proof. apply string_forall_app. Qed.

(** Claim C10. For a document id without underscore, any page number
    and image index, and an extension without dot or underscore, parsing
    the filename built on the scheme
    [{document_id}_page_{n}_image_{i}.{ext}] gives back exactly
    [(document_id, n, i)]. *)
Theorem parse_image_filename_roundtrip (document_id ext : string) (n i : Z) :
  lacks "_" document_id = true →
  lacks "." ext = true →
  lacks "_" ext = true →
  parse_image_filename (image_filename document_id n i ext)
  = Return (document_id, n, i).
Proof.
  intros Hid Hdot Hus.
  assert (lacks "_" (str i +:+ String "." ext) = true) as Hlast.
  { rewrite lacks_app. apply andb_true_intro. split.
    - by apply str_no_sep.
    - simpl. exact Hus. }
  unfold parse_image_filename. rewrite image_filename_shape.
  rewrite (split_on_cons _ document_id) by exact Hid.
  rewrite (split_on_cons _ "page") by reflexivity.
  rewrite (split_on_cons _ (str n)) by by apply str_no_sep.
  rewrite (split_on_cons _ "image") by reflexivity.
  rewrite (split_on_whole _ _ Hlast).
  cbn [index lookup list_lookup mbind outcome_bind bind].
  rewrite int_str. cbn [mbind outcome_bind bind].
  rewrite (split_on_cons _ (str i)) by by apply str_no_sep.
  cbn [index lookup list_lookup mbind outcome_bind bind].
  rewrite int_str. reflexivity.
Qed.

Lemma parse_image_filename_roundtrip_witness :
  parse_image_filename (image_filename "abc123" 1 2 "png")
  = Return ("abc123", 1, 2).
Proof. by apply parse_image_filename_roundtrip. Defined.

(** The filenames of the unit test. *)
Example parse_image_filename_test :
  parse_image_filename "abc123_page_1_image_2.png" = Return ("abc123", 1, 2)
  ∧ parse_image_filename "550e8400-e29b-41d4-a716-446655440000_page_3_image_1.jpg"
    = Return ("550e8400-e29b-41d4-a716-446655440000", 3, 1).
Proof. split; reflexivity. Qed.

(** Without the condition on the document id the first field is cut
    short. *)
Example parse_image_filename_underscore_id :
  parse_image_filename (image_filename "ab_cd" 1 2 "png") ≠ Return ("ab_cd", 1, 2).
Proof. vm_compute. discriminate. Qed.

End image_filenames.

(** ** Bulk insert of text rows *)

Section save_text_content.

Import PDFRepository.

Lemma page_number_of_label (n : Z) : page_number_of_key (page_label n) = Return n.
Proof.
  unfold page_number_of_key, page_label, split_ws.
  replace ("Page " +:+ str n) with ("Page" +:+ String " " (str n +:+ ""))
    by (by rewrite app_empty_r).
  rewrite (split_ws_go_run "Page") by reflexivity.
  cbn [split_ws_go is_space]. change (is_space " ") with true. cbv iota.
  change (String.eqb ("" +:+ "Page") "") with false. cbv iota.
  rewrite (split_ws_go_run (str n)) by apply str_no_space.
  cbn [split_ws_go]. change ("" +:+ str n) with (str n).
  destruct (String.eqb_spec (str n) "") as [Hempty | _].
  - pose proof (int_literal_str n) as Hn. rewrite Hempty in Hn. discriminate.
  - cbn [index lookup list_lookup mbind outcome_bind bind]. apply int_str.
Qed.

(** The loop: it touches only the pending objects of the session; when it
    ends normally it has added one row per item, in order; when it raises,
    the exception is that of a key of [text_data]. *)
Lemma add_text_contents_spec (document_id : string) (items : list (string * string)) :
  ∀ acc db,
    match add_text_contents document_id items acc db with
    | (db', Return rows) =>
        database db' = database db
        ∧ ∃ new, rows = (acc ++ new)%list
                 ∧ pending db' = (pending db ++ new)%list
                 ∧ Forall2 (row_of_item document_id) items new
    | (db', Raise e) =>
        database db' = database db
        ∧ ∃ item, item ∈ items ∧ page_number_of_key item.1 = Raise e
    end.
Proof.
  induction items as [|[page_key content] items IH]; intros acc db.
  - simpl. split; [done|]. exists []. by rewrite !app_nil_r.
  - cbn [add_text_contents].
    destruct (page_number_of_key page_key) as [page_number | e] eqn:Hkey.
    + set (row := {| text_document_id := document_id;
                     text_page_number := page_number;
                     text_content := content |}).
      specialize (IH (acc ++ [row])%list (add row db)).
      destruct (add_text_contents _ _ _ _) as [db' [rows | e]].
      * destruct IH as (Hdb & new & -> & Hpend & Hrows). split; [done|].
        exists (row :: new). split; [by rewrite <- app_assoc|].
        split; [by rewrite Hpend; simpl; rewrite <- app_assoc|].
        constructor; [|done]. by repeat split.
      * destruct IH as (Hdb & item & Hin & Hitem). split; [done|].
        exists item. split; [by right | done].
    + split; [done|]. exists (page_key, content). split; [by left | done].
Qed.

(** Claim C5. A label ["Page N"] is read as the page number [N]. If
    the key of some item of the mapping has no integer as its second field,
    [save_text_content] raises and the committed rows are what they were:
    no row of the call is committed. If every key can be read, the call
    commits one row per item, all by the one [commit] at its end. *)
Theorem save_text_content_all_or_nothing (db : Session) (document_id : string)
    (text_data : list (string * string)) :
  (∀ n : Z, page_number_of_key (page_label n) = Return n)
  ∧ ((∃ item, item ∈ text_data ∧ raises (page_number_of_key item.1)) →
     ∃ db' e, save_text_content db document_id text_data = (db', Raise e)
              ∧ database db' = database db)
  ∧ ((∀ item, item ∈ text_data → returns (page_number_of_key item.1)) →
     ∃ db' rows, save_text_content db document_id text_data = (db', Return rows)
                 ∧ Forall2 (row_of_item document_id) text_data rows
                 ∧ text_contents (database db')
                   = (text_contents (database db) ++ pending db ++ rows)%list
                 ∧ pending db' = []).
Proof.
  split; [exact page_number_of_label|].
  pose proof (add_text_contents_spec document_id text_data [] db) as Hloop.
  unfold save_text_content.
  destruct (add_text_contents _ _ _ _) as [db' [rows | e]].
  - destruct Hloop as (Hdb & new & -> & Hpend & Hrows). simpl in *. split.
    + intros (item & Hin & e & He).
      destruct (proj1 (list_elem_of_lookup _ _) Hin) as [k Hk].
      destruct (Forall2_lookup_l _ _ _ _ _ Hrows Hk) as (row & _ & Hrow & _).
      congruence.
    + intros _. exists (commit db'), new. repeat split; [done|].
      simpl. by rewrite Hdb, Hpend.
  - destruct Hloop as (Hdb & item & Hin & Hitem). split.
    + intros _. by exists db', e.
    + intros Hall. destruct (Hall item Hin) as [n Hn]. congruence.
Qed.

Lemma save_text_content_all_or_nothing_witness :
  (∃ db' e, save_text_content Samples.session "old-doc-id" Samples.text_data_bad
            = (db', Raise e)
            ∧ database db' = database Samples.session)
  ∧ (∃ db' rows, save_text_content Samples.session "old-doc-id"
                   Samples.text_data_good = (db', Return rows)
                 ∧ Forall2 (row_of_item "old-doc-id") Samples.text_data_good rows
                 ∧ text_contents (database db')
                   = (text_contents (database Samples.session)
                      ++ pending Samples.session ++ rows)%list
                 ∧ pending db' = []).
Proof.
  split.
  - apply (save_text_content_all_or_nothing Samples.session "old-doc-id"
             Samples.text_data_bad).
    exists ("Page two", "More text"). split.
    + apply list_elem_of_further, list_elem_of_here.
    + eexists. reflexivity.
  - apply (save_text_content_all_or_nothing Samples.session "old-doc-id"
             Samples.text_data_good).
    apply Forall_forall. repeat constructor; eexists; reflexivity.
Defined.

(** Keys that [save_text_content] cannot read, and one that it can although
    more follows the number. *)
Example malformed_page_keys :
  page_number_of_key "Page" = Raise (IndexError "list index out of range")
  ∧ page_number_of_key "" = Raise (IndexError "list index out of range")
  ∧ raises (page_number_of_key "Page two")
  ∧ raises (page_number_of_key "Page1 1x")
  ∧ page_number_of_key "Page 3 of 7" = Return 3.
Proof. repeat split; try reflexivity; eexists; reflexivity. Qed.

(** What the failed call added stays pending in the session: nothing rolls
    it back. *)
Example save_text_content_failure_pending :
  pending (save_text_content Samples.session "old-doc-id"
             Samples.text_data_bad).1
  = [{| text_document_id := "old-doc-id"; text_page_number := 1;
        text_content := "Test text content" |}].
Proof. reflexivity. Qed.

End save_text_content.

(** ** Reading documents *)

Section reading.

Import PDFRepository.

Global Instance newer_or_same_total : Total newer_or_same.
Proof. intros a b. unfold newer_or_same. lia. Qed.

Global Instance newer_or_same_trans : Transitive newer_or_same.
Proof. intros a b c. unfold newer_or_same. lia. Qed.

Lemma get_document_found (db : Session) (document_id : string) (d : PDFDocument) :
  get_document db document_id = Some d →
  d ∈ pdf_documents (database db) ∧ doc_id d = document_id.
Proof.
  unfold get_document. intros Hhead.
  apply head_Some_elem_of in Hhead. by apply list_elem_of_filter in Hhead as [? ?].
Qed.

(** Claim C9. For an id that no stored document has,
    [get_document] returns [None]; the function has no other result than a
    document or [None]. *)
Theorem get_document_absent (db : Session) (document_id : string) :
  (∀ d, d ∈ pdf_documents (database db) → doc_id d ≠ document_id) →
  get_document db document_id = None.
Proof.
  intros Habsent. destruct (get_document db document_id) as [d|] eqn:Hget; [|done].
  apply get_document_found in Hget as [Hin Hid]. by destruct (Habsent d Hin).
Qed.

Lemma get_document_absent_witness :
  get_document Samples.session "never-created" = None.
Proof.
  apply get_document_absent. apply Forall_forall.
  repeat constructor; discriminate.
Defined.

Example get_document_present :
  get_document Samples.session "old-doc-id" = Some Samples.old_doc.
Proof. reflexivity. Qed.

Lemma length_list_documents (db : Session) (skip limit : nat) :
  length (list_documents db skip limit)
  = (limit `min` (length (pdf_documents (database db)) - skip))%nat.
Proof.
  unfold list_documents, order_by_created_at_desc.
  rewrite length_take, length_drop.
  by rewrite (Permutation_length (merge_sort_Permutation _ _)).
Qed.

(** Claim C8. [list_documents] returns the stored documents put in
    the order newest first, without the first [skip] of them and cut after
    [limit] of them. *)
Theorem list_documents_newest_first (db : Session) (skip limit : nat) :
  let ordered := order_by_created_at_desc (pdf_documents (database db)) in
  ordered ≡ₚ pdf_documents (database db)
  ∧ StronglySorted (λ a b, doc_created_at b ≤ doc_created_at a) ordered
  ∧ list_documents db skip limit = take limit (drop skip ordered)
  ∧ (length (list_documents db skip limit) ≤ limit)%nat.
Proof.
  intros ordered. split; [apply merge_sort_Permutation|].
  split; [apply (StronglySorted_merge_sort newer_or_same)|].
  split; [done|]. rewrite length_list_documents. lia.
Qed.

Example list_documents_sample :
  list_documents Samples.session 1 2 = [Samples.boundary_doc; Samples.old_doc]
  ∧ list_documents Samples.session 3 100 = [Samples.older_doc]
  ∧ list_documents Samples.session 7 100 = [].
Proof. repeat split; reflexivity. Qed.

End reading.

(** ** The sweep *)

Section sweep.

Implicit Types (w : World) (ft : Faults) (settings : Settings).

Global Instance evolves_refl : Reflexive evolves.
Proof. intros w. by repeat split. Qed.

Global Instance evolves_trans : Transitive evolves.
Proof.
  intros w1 w2 w3 (Hdb1 & Hfs1 & Hlog1) (Hdb2 & Hfs2 & Hlog2).
  split; [congruence|]. split; [set_solver | auto].
Qed.

Lemma evolves_log_to lv msg w : evolves w (log_to lv msg w).
Proof.
  split; [done|]. split; [done|]. intros r Hr. simpl. unfold emit.
  apply elem_of_app. by left.
Qed.

Lemma elem_of_log_to lv msg w : (lv, msg) ∈ log (log_to lv msg w).
Proof. simpl. unfold emit. apply elem_of_app. right. by left. Qed.

Lemma attempted_evolves wd path w w' :
  evolves w w' → attempted wd path (log w) → attempted wd path (log w').
Proof.
  intros (_ & _ & Hlog) [H | [H | [e H]]].
  - left. auto.
  - right. left. auto.
  - right. right. exists e. auto.
Qed.

Lemma handled_evolves ft wd path w w' :
  evolves w w' → handled ft wd path w → handled ft wd path w'.
Proof.
  intros Hev [Hatt Hgone]. split; [by eapply attempted_evolves|].
  intros Hok. destruct Hev as (_ & Hfs & _). specialize (Hgone Hok). set_solver.
Qed.


(** One deletion attempt: whatever happens to the file, the attempt ends
    normally and leaves one of its three lines in the log. *)
Lemma delete_file_spec wd ft path w :
  evolves w (delete_file wd ft path w)
  ∧ handled ft wd path (delete_file wd ft path w).
Proof.
  unfold delete_file, os_remove.
  destruct (os_path_exists path w) eqn:Hexists;
    [destruct (remove_fault ft path) as [e|] eqn:Hfault|].
  - split; [apply evolves_log_to|]. split; [|congruence].
    right. right. exists e. apply elem_of_log_to.
  - split.
    + etrans; [|apply evolves_log_to]. split; [done|]. split; [|done].
      simpl. by intros x [Hx _]%elem_of_difference.
    + split; [left; apply elem_of_log_to|]. intros _. simpl.
      intros [_ Hne]%elem_of_difference. apply Hne. by apply elem_of_singleton.
  - split; [apply evolves_log_to|]. split.
    + right. left. apply elem_of_log_to.
    + intros _. simpl. unfold os_path_exists in Hexists.
      by apply bool_decide_eq_false in Hexists.
Qed.

Lemma delete_images_spec ft settings (imgs : list Image) : ∀ w,
  evolves w (delete_images ft settings imgs w)
  ∧ ∀ i, i ∈ imgs →
         handled ft image_wording (image_path settings i)
           (delete_images ft settings imgs w).
Proof.
  induction imgs as [|i imgs IH]; intros w.
  - split; [done|]. intros i Hi. by apply elem_of_nil in Hi.
  - change (delete_images ft settings (i :: imgs) w)
      with (delete_images ft settings imgs
              (delete_file image_wording ft (image_path settings i) w)).
    destruct (delete_file_spec image_wording ft (image_path settings i) w)
      as [Hev1 Hh1].
    destruct (IH (delete_file image_wording ft (image_path settings i) w))
      as [Hev2 Hh2].
    split; [by etrans|].
    intros i' [-> | Hi']%elem_of_cons; [by eapply handled_evolves | auto].
Qed.

Lemma cleanup_document_evolves ft settings d w :
  evolves w (cleanup_document ft settings d w).1.
Proof.
  unfold cleanup_document.
  assert (evolves w (delete_file pdf_wording ft (pdf_path settings d)
                       (log_to INFO ("Cleaning up document: " +:+ doc_id d) w)))
    as Hev.
  { etrans; [apply evolves_log_to | apply delete_file_spec]. }
  destruct (load_images _ _ _) as [imgs | e]; simpl; [|done].
  etrans; [exact Hev | apply delete_images_spec].
Qed.


Lemma cleanup_documents_evolves ft settings (docs : list PDFDocument) : ∀ w,
  evolves w (cleanup_documents ft settings docs w).1.
Proof.
  induction docs as [|d docs IH]; intros w; [done|].
  cbn [cleanup_documents].
  pose proof (cleanup_document_evolves ft settings d w) as Hev.
  destruct (cleanup_document ft settings d w) as [w' [[]|e]]; simpl in *; [|done].
  etrans; [exact Hev | apply IH].
Qed.


Lemma cleanup_session_evolves ft settings threshold w :
  evolves w (cleanup_session ft settings threshold w).1.
Proof.
  unfold cleanup_session. destruct (query_fault ft); [done|].
  destruct (old_documents (db w) threshold) as [|d docs] eqn:Hfound;
    [apply evolves_log_to|].
  set (w1 := log_to _ _ w).
  pose proof (cleanup_documents_evolves ft settings (d :: docs) w1) as Hev.
  destruct (cleanup_documents _ _ _ _) as [w' [[]|e]]; simpl in *;
    (etrans; [apply evolves_log_to | exact Hev]).
Qed.


Lemma cleanup_body_evolves self ft settings now w :
  evolves w (cleanup_body self ft settings now w).1.
Proof.
  unfold cleanup_body, finally_close.
  set (w1 := log_to INFO "Running file cleanup task" w).
  assert (evolves w w1) as Hev1 by apply evolves_log_to.
  destruct (session_fault ft); [done|].
  pose proof (cleanup_session_evolves ft settings
                (retention_threshold self now) w1) as Hev2.
  destruct (cleanup_session _ _ _ _) as [w2 o]. simpl in Hev2.
  assert (evolves w w2) as Hev by by etrans.
  destruct (close_fault ft); [done|].
  destruct o as [[]|e]; simpl; [done | | done].
  etrans; [exact Hev | apply evolves_log_to].
Qed.


Lemma cleanup_old_files_evolves self ft settings now w :
  evolves w (cleanup_old_files self ft settings now w).1.
Proof.
  unfold cleanup_old_files.
  pose proof (cleanup_body_evolves self ft settings now w) as Hev.
  destruct (cleanup_body _ _ _ _ _) as [w' [[]|e]]; simpl in *; [done|].
  etrans; [exact Hev | apply evolves_log_to].
Qed.

(** *** Which files a sweep can remove *)

Lemma removes_only_same (P : string → Prop) w w' : fs w' = fs w → removes_only P w w'.
Proof. intros Hfs path Hin Hout. rewrite Hfs in Hout. by destruct Hout. Qed.

Lemma removes_only_trans (P : string → Prop) w1 w2 w3 :
  removes_only P w1 w2 → removes_only P w2 w3 → removes_only P w1 w3.
Proof.
  intros H12 H23 path Hin Hout.
  destruct (decide (path ∈ fs w2)) as [Hmid | Hmid]; [by apply H23 | by apply H12].
Qed.

Lemma removes_only_impl (P Q : string → Prop) w w' :
  (∀ path, P path → Q path) → removes_only P w w' → removes_only Q w w'.
Proof. intros HPQ Hrem path Hin Hout. by apply HPQ, Hrem. Qed.

Lemma delete_file_removes wd ft path w :
  removes_only (λ p, p = path) w (delete_file wd ft path w).
Proof.
  unfold delete_file, os_remove.
  destruct (os_path_exists path w) eqn:Hexists;
    [destruct (remove_fault ft path) as [e|]|]; try by apply removes_only_same.
  intros p Hin Hout. simpl in Hout.
  destruct (decide (p = path)) as [-> | Hne]; [done|].
  destruct Hout. apply elem_of_difference. split; [done|].
  by intros ->%elem_of_singleton.
Qed.

Lemma delete_images_removes ft settings (imgs : list Image) : ∀ w,
  removes_only (λ p, p ∈ image_path settings <$> imgs) w
    (delete_images ft settings imgs w).
Proof.
  induction imgs as [|i imgs IH]; intros w; [by apply removes_only_same|].
  change (delete_images ft settings (i :: imgs) w)
    with (delete_images ft settings imgs
            (delete_file image_wording ft (image_path settings i) w)).
  eapply removes_only_trans.
  - eapply removes_only_impl; [|apply delete_file_removes].
    intros p ->. rewrite fmap_cons. apply list_elem_of_here.
  - eapply removes_only_impl; [|apply IH].
    intros p Hp. rewrite fmap_cons. by apply list_elem_of_further.
Qed.

Lemma cleanup_document_removes ft settings d w :
  removes_only (λ p, p ∈ document_paths settings (db w) d) w
    (cleanup_document ft settings d w).1.
Proof.
  unfold cleanup_document, load_images, document_paths.
  set (w1 := log_to INFO ("Cleaning up document: " +:+ doc_id d) w).
  set (w2 := delete_file pdf_wording ft (pdf_path settings d) w1).
  assert (removes_only (λ p, p = pdf_path settings d) w w2) as Hpdf.
  { apply (removes_only_trans _ w w1 w2); [by apply removes_only_same|].
    apply delete_file_removes. }
  assert (db w2 = db w) as Hdb.
  { destruct (delete_file_spec pdf_wording ft (pdf_path settings d) w1) as [Hev _].
    apply Hev. }
  destruct (images_fault ft (doc_id d)); simpl.
  - eapply removes_only_impl; [|exact Hpdf]. intros p ->. apply list_elem_of_here.
  - eapply removes_only_trans.
    + eapply removes_only_impl; [|exact Hpdf]. intros p ->. apply list_elem_of_here.
    + eapply removes_only_impl; [|apply delete_images_removes].
      intros p Hp. rewrite <- Hdb. by apply list_elem_of_further.
Qed.

Lemma cleanup_documents_removes ft settings (docs : list PDFDocument) : ∀ w,
  removes_only (λ p, ∃ d, d ∈ docs ∧ p ∈ document_paths settings (db w) d) w
    (cleanup_documents ft settings docs w).1.
Proof.
  induction docs as [|d docs IH]; intros w; [by apply removes_only_same|].
  cbn [cleanup_documents].
  pose proof (cleanup_document_removes ft settings d w) as Hd.
  pose proof (cleanup_document_evolves ft settings d w) as Hev.
  destruct (cleanup_document ft settings d w) as [w' [[]|e]]; simpl in *.
  - eapply removes_only_trans.
    + eapply removes_only_impl; [|exact Hd].
      intros p Hp. exists d. split; [apply list_elem_of_here | done].
    + eapply removes_only_impl; [|apply IH].
      destruct Hev as (Hdb & _). rewrite Hdb.
      intros p (d' & Hd' & Hp). exists d'. split; [by apply list_elem_of_further | done].
  - eapply removes_only_impl; [|exact Hd].
    intros p Hp. exists d. split; [apply list_elem_of_here | done].
Qed.

(** A sweep removes no other file than the backing files of the documents
    it selected. *)
Lemma cleanup_old_files_removes self ft settings (now : Z) w :
  removes_only
    (λ p, ∃ d, d ∈ old_documents (db w) (retention_threshold self now)
               ∧ p ∈ document_paths settings (db w) d)
    w (cleanup_old_files self ft settings now w).1.
Proof.
  assert (removes_only
            (λ p, ∃ d, d ∈ old_documents (db w) (retention_threshold self now)
                       ∧ p ∈ document_paths settings (db w) d)
            w (cleanup_body self ft settings now w).1) as Hbody.
  { unfold cleanup_body, finally_close.
    set (w1 := log_to INFO "Running file cleanup task" w).
    destruct (session_fault ft); [by apply removes_only_same|].
    assert (removes_only
              (λ p, ∃ d, d ∈ old_documents (db w) (retention_threshold self now)
                         ∧ p ∈ document_paths settings (db w) d)
              w (cleanup_session ft settings (retention_threshold self now) w1).1)
      as Hsession.
    { unfold cleanup_session. destruct (query_fault ft); [by apply removes_only_same|].
      change (db w1) with (db w).
      destruct (old_documents (db w) (retention_threshold self now))
        as [|d0 docs] eqn:Hfound; [by apply removes_only_same|].
      set (w2 := log_to _ _ w1).
      pose proof (cleanup_documents_removes ft settings (d0 :: docs) w2) as Hdocs.
      change (db w2) with (db w) in Hdocs.
      destruct (cleanup_documents _ _ _ _) as [w' [[]|e]]; simpl in *;
        (eapply removes_only_trans; [by apply (removes_only_same _ w w2) | exact Hdocs]). }
    destruct (cleanup_session _ _ _ _) as [w2 o]. simpl in Hsession.
    destruct (close_fault ft); [done|].
    destruct o as [[]|e]; simpl; [done | | done].
    eapply removes_only_trans; [exact Hsession | by apply removes_only_same]. }
  unfold cleanup_old_files.
  destruct (cleanup_body _ _ _ _ _) as [w' [[]|e]]; simpl in *; [done|].
  eapply removes_only_trans; [exact Hbody | by apply removes_only_same].
Qed.

(** The files of the documents that are not selected are still there after
    the sweep of the sample data. *)
Example sweep_keeps_recent_files :
  fs (cleanup_old_files Samples.worker_10 no_faults Samples.settings
        Samples.now Samples.files_present).1
  = {[ "/app/uploads/pdfs/edge.pdf"; "/app/uploads/pdfs/new.pdf" ]}.
Proof. by vm_compute. Qed.

(** The block under the outer [try] does raise: here because no session
    can be had. *)
Example cleanup_body_raises :
  (cleanup_body Samples.worker_10 Samples.database_down Samples.settings
     Samples.now Samples.files_present).2
  = Raise (Exception "Database error").
Proof. reflexivity. Qed.

Lemma old_documents_sample :
  old_documents Samples.rows (retention_threshold Samples.worker_10 Samples.now)
  = [Samples.old_doc; Samples.older_doc].
Proof. reflexivity. Qed.


(** The log of that sweep: the second document is not reached. *)
Example sweep_load_fails_log :
  log (cleanup_old_files Samples.worker_10 Samples.load_fails Samples.settings
         Samples.now Samples.files_present).1
  = [ (INFO, "Running file cleanup task");
      (INFO, "Found 2 old documents to clean up");
      (INFO, "Cleaning up document: old-doc-id");
      (INFO, "Deleted PDF file: /app/uploads/pdfs/test.pdf");
      (ERROR, "Error in file cleanup task: server closed the connection unexpectedly") ].
Proof. vm_compute. reflexivity. Qed.




End sweep.

(** ** Selection and rows *)

Section selection.

Implicit Types (w : World) (ft : Faults) (settings : Settings).

(** Claim C3. A sweep with retention age [r] selects exactly the
    stored documents created strictly before [now - r]: a document created
    at [now - r] is not selected, one that is a millisecond older is. *)
Theorem sweep_selects_strictly_older (self : FileCleanupWorker) (now : Z)
    (database : Database) (d : PDFDocument) :
  let cutoff := now - minutes (retention_minutes self) in
  (d ∈ old_documents database (retention_threshold self now)
     ↔ d ∈ pdf_documents database ∧ doc_created_at d < cutoff)
  ∧ (doc_created_at d = cutoff →
     d ∉ old_documents database (retention_threshold self now))
  ∧ (d ∈ pdf_documents database → doc_created_at d = cutoff - 1000 →
     d ∈ old_documents database (retention_threshold self now)).
Proof.
  intros cutoff.
  assert (d ∈ old_documents database (retention_threshold self now)
          ↔ d ∈ pdf_documents database ∧ doc_created_at d < cutoff) as Hiff.
  { unfold old_documents, retention_threshold. rewrite list_elem_of_filter.
    subst cutoff. tauto. }
  split; [exact Hiff|]. split.
  - intros Heq [_ Hlt]%Hiff. lia.
  - intros Hin Heq. apply Hiff. split; [done | lia].
Qed.

Lemma sweep_selects_strictly_older_witness :
  (Samples.boundary_doc
     ∉ old_documents Samples.rows
         (retention_threshold Samples.worker_10 Samples.now))
  ∧ ({| doc_id := "ms-older"; doc_filename := "ms.pdf";
        doc_original_filename := "ms.pdf";
        doc_created_at := Samples.now - minutes 10 - 1000 |}
     ∈ old_documents
         {| pdf_documents :=
              [{| doc_id := "ms-older"; doc_filename := "ms.pdf";
                  doc_original_filename := "ms.pdf";
                  doc_created_at := Samples.now - minutes 10 - 1000 |}];
            text_contents := []; images := []; tables := [] |}
         (retention_threshold Samples.worker_10 Samples.now)).
Proof.
  split.
  - apply (sweep_selects_strictly_older Samples.worker_10 Samples.now
             Samples.rows Samples.boundary_doc). reflexivity.
  - apply sweep_selects_strictly_older; [apply list_elem_of_here | reflexivity].
Defined.

(** The sweep does what it does to files and to the log; the rows it only
    reads. *)
Lemma cleanup_old_files_db self ft settings (now : Z) w :
  db (cleanup_old_files self ft settings now w).1 = db w.
Proof. apply cleanup_old_files_evolves. Qed.




(** The log of the sweep over missing files: a warning per file, no
    error. *)
Example sweep_missing_files_log :
  log (cleanup_old_files Samples.worker_10 no_faults Samples.settings
         Samples.now Samples.files_missing).1
  = [ (INFO, "Running file cleanup task");
      (INFO, "Found 2 old documents to clean up");
      (INFO, "Cleaning up document: old-doc-id");
      (WARNING, "PDF file not found for deletion: /app/uploads/pdfs/test.pdf");
      (WARNING, "Image file not found for deletion: /app/uploads/images/old-doc-id_page_0_image_1.png");
      (INFO, "Cleaning up document: older-doc-id");
      (WARNING, "PDF file not found for deletion: /app/uploads/pdfs/scan.pdf");
      (INFO, "File cleanup task completed") ].
Proof. vm_compute. reflexivity. Qed.

End selection.

(** ** Starting and stopping the worker *)

Section lifecycle.

(** Claim C6. [start] and [stop] are the two transitions of a machine
    with the states stopped and running. [start] takes a stopped worker to
    a running one through one call of the scheduler's [start], and leaves a
    running worker as it is, without a call and without a log line; [stop]
    takes a running worker to a stopped one through one call of
    [shutdown], and leaves a stopped worker as it is. *)
Theorem start_stop_idempotent (self : FileCleanupWorker) (log : logger) :
  (running (scheduler self) = false →
     ∃ started,
       start self log
       = (emit INFO "Starting file cleanup worker" log, Return started)
       ∧ running (scheduler started) = true
       ∧ start_calls (scheduler started) = S (start_calls (scheduler self))
       ∧ retention_minutes started = retention_minutes self
       ∧ ∀ log', start started log' = (log', Return started))
  ∧ (running (scheduler self) = true → start self log = (log, Return self))
  ∧ (running (scheduler self) = true →
     ∃ stopped,
       stop self log
       = (emit INFO "Stopping file cleanup worker" log, Return stopped)
       ∧ running (scheduler stopped) = false
       ∧ shutdown_calls (scheduler stopped) = S (shutdown_calls (scheduler self))
       ∧ retention_minutes stopped = retention_minutes self
       ∧ ∀ log', stop stopped log' = (log', Return stopped))
  ∧ (running (scheduler self) = false → stop self log = (log, Return self)).
Proof.
  unfold start, stop, scheduler_start, scheduler_shutdown.
  destruct self as [retention [is_running js n m f1 f2 fire] trigger]. simpl.
  repeat split; intros ->; simpl; try done; eexists; by repeat split.
Qed.

Lemma start_stop_idempotent_witness :
  (∃ started,
     start Samples.worker_10 []
     = ([(INFO, "Starting file cleanup worker")], Return started)
     ∧ start started [(INFO, "Starting file cleanup worker")]
       = ([(INFO, "Starting file cleanup worker")], Return started)
     ∧ ∃ stopped,
         stop started [] = ([(INFO, "Stopping file cleanup worker")], Return stopped)
         ∧ stop stopped [] = ([], Return stopped))
  ∧ stop Samples.worker_10 [] = ([], Return Samples.worker_10).
Proof.
  destruct (start_stop_idempotent Samples.worker_10 [])
    as (Hstart & _ & _ & Hstop).
  destruct (Hstart eq_refl) as (started & Heq & Hrun & _ & _ & Hagain).
  split; [|exact (Hstop eq_refl)].
  exists started. split; [exact Heq|]. split; [apply Hagain|].
  destruct (start_stop_idempotent started []) as (_ & _ & Hdown & _).
  destruct (Hdown Hrun) as (stopped & Heq' & _ & _ & _ & Hagain').
  exists stopped. split; [exact Heq' | apply Hagain'].
Defined.

(** Without the guard of [start], the scheduler refuses the second
    call. *)
Example scheduler_start_twice (s : Scheduler) :
  running s = true → raises (scheduler_start s).
Proof. intros Hrun. unfold scheduler_start. rewrite Hrun. by eexists. Qed.

End lifecycle.

(** ** The retention age of the single instance *)

Section retention.

Implicit Types (settings : Settings) (env_retention : option string).

Lemma init_retention (s : Scheduler) (retention : Z) (log : logger) :
  ∃ w, (init (Return s) retention log).2 = Return w
       ∧ retention_minutes w = retention.
Proof. by eexists. Qed.

Lemma file_cleanup_worker_configured settings env_retention (s : Scheduler)
    (second : outcome Scheduler) (log : logger) (retention : Z) :
  configured_retention settings env_retention = Return retention →
  ∃ w, (file_cleanup_worker settings env_retention (Return s) second log).2
       = Return w
       ∧ retention_minutes w = retention.
Proof. intros Hconf. unfold file_cleanup_worker. rewrite Hconf. by eexists. Qed.

(** Claim C7, as the specification has it, fails: with 30 minutes in the
    settings and an environment value that [int] rejects, the worker keeps
    files for 30 minutes, not for the 10 of the hard-coded default. *)
Lemma unparsable_env_default_counterexample :
  ¬ (∀ settings env_retention (first second : outcome Scheduler) (log : logger)
       (t : string) (w : FileCleanupWorker),
       truthy env_retention = Some t →
       raises (int t) →
       (file_cleanup_worker settings env_retention first second log).2 = Return w →
       retention_minutes w = 10).
Proof.
  intros Hclaim.
  assert (30 = 10) as Habsurd; [|done].
  apply (Hclaim Samples.settings_30 (Some "30.0")
           (Return BackgroundScheduler) (Return BackgroundScheduler) [] "30.0"
           {| retention_minutes := 30;
              scheduler := add_job cleanup_job BackgroundScheduler;
              trigger_minutes := 1 |}).
  - reflexivity.
  - by eexists.
  - reflexivity.
Qed.

(** Claim C7, as the code has it. The retention age is fixed when the worker is
    constructed. With nothing configured and no environment value it is the
    default of 10 minutes; an environment value that [int] accepts
    overrides the settings value; when [int] rejects the environment value
    the settings value is kept (itself 10 when nothing is configured); and
    when the construction fails the worker is constructed again with 10. *)
Theorem file_cleanup_worker_retention settings env_retention
    (first second : outcome Scheduler) (log : logger) :
  let result := (file_cleanup_worker settings env_retention first second log).2 in
  (∀ upload images, FILE_RETENTION_MINUTES (Settings_new upload images None) = 10)
  ∧ (∀ s, first = Return s → truthy env_retention = None →
       ∃ w, result = Return w
            ∧ retention_minutes w = FILE_RETENTION_MINUTES settings)
  ∧ (∀ s t n, first = Return s → truthy env_retention = Some t →
       int t = Return n →
       ∃ w, result = Return w ∧ retention_minutes w = n)
  ∧ (∀ s t, first = Return s → truthy env_retention = Some t →
       raises (int t) →
       ∃ w, result = Return w
            ∧ retention_minutes w = FILE_RETENTION_MINUTES settings)
  ∧ (∀ e s, first = Raise e → second = Return s →
       ∃ w, result = Return w ∧ retention_minutes w = 10).
Proof.
  intros result. subst result. split; [done|].
  split; [|split; [|split]].
  - intros s -> Henv. apply file_cleanup_worker_configured.
    unfold configured_retention. by rewrite Henv.
  - intros s t n -> Henv Hint. apply file_cleanup_worker_configured.
    unfold configured_retention. by rewrite Henv, Hint.
  - intros s t -> Henv [e Hint]. apply file_cleanup_worker_configured.
    unfold configured_retention. rewrite Henv, Hint.
    unfold int in Hint. destruct (int_literal (strip t)); [done|].
    by injection Hint as <-.
  - intros e s -> ->. unfold file_cleanup_worker.
    destruct (configured_retention settings env_retention); by eexists.
Qed.

Lemma file_cleanup_worker_retention_witness :
  (∃ w, (file_cleanup_worker Samples.settings None (Return BackgroundScheduler)
           (Return BackgroundScheduler) []).2 = Return w
        ∧ retention_minutes w = 10)
  ∧ (∃ w, (file_cleanup_worker Samples.settings_30 (Some " 15 ")
             (Return BackgroundScheduler) (Return BackgroundScheduler) []).2
          = Return w
          ∧ retention_minutes w = 15)
  ∧ (∃ w, (file_cleanup_worker Samples.settings_30 (Some "abc")
             (Return BackgroundScheduler) (Return BackgroundScheduler) []).2
          = Return w
          ∧ retention_minutes w = 30)
  ∧ (∃ w, (file_cleanup_worker Samples.settings_30 (Some "15")
             (Raise (Exception "no scheduler")) (Return BackgroundScheduler) []).2
          = Return w
          ∧ retention_minutes w = 10).
Proof.
  split; [|split; [|split]].
  - apply (file_cleanup_worker_retention Samples.settings None
             (Return BackgroundScheduler) (Return BackgroundScheduler) [])
      with (s := BackgroundScheduler); reflexivity.
  - apply (file_cleanup_worker_retention Samples.settings_30 (Some " 15 ")
             (Return BackgroundScheduler) (Return BackgroundScheduler) [])
      with (s := BackgroundScheduler) (t := " 15 "); reflexivity.
  - apply (file_cleanup_worker_retention Samples.settings_30 (Some "abc")
             (Return BackgroundScheduler) (Return BackgroundScheduler) [])
      with (s := BackgroundScheduler) (t := "abc");
      [reflexivity | reflexivity | by eexists].
  - apply (file_cleanup_worker_retention Samples.settings_30 (Some "15")
             (Raise (Exception "no scheduler")) (Return BackgroundScheduler) [])
      with (e := Exception "no scheduler") (s := BackgroundScheduler);
      reflexivity.
Defined.

End retention.

(** ** The worker-status endpoint *)

Section worker_status.

Variable isoformat : Z → string.

(** Claim C2 against the code. With a running scheduler whose
    [get_job] raises, the input of [test_get_worker_status_error_handling],
    [get_worker_status] raises the exception of the lookup: there is no
    handler in it, and no response. *)
Theorem get_worker_status_raises :
  get_worker_status isoformat Samples.worker_lookup_fails
  = Raise (Exception "Unexpected error").
Proof. reflexivity. Qed.

(** A lookup that raises always ends the query. *)
Lemma get_worker_status_propagates (worker : FileCleanupWorker) (e : exn) :
  running (scheduler worker) = true →
  get_job_fault (scheduler worker) = Some e →
  get_worker_status isoformat worker = Raise e.
Proof.
  intros Hrun Hfault. unfold get_worker_status, next_run_of, get_job.
  by rewrite Hrun, Hfault.
Qed.

(** With a stopped scheduler the lookup of the job is not made; the
    response of [test_get_worker_status_not_running] carries no error. *)
Example get_worker_status_not_running :
  get_worker_status isoformat Samples.worker_not_initialized
  = Return {| status_running := false; status_retention_minutes := 10;
              status_next_run := None; status_job_count := 0 |}.
Proof. reflexivity. Qed.

End worker_status.

(** * Further properties *)

(** ** Splitting, and what [parse_image_filename] accepts *)

Section splitting.

Import FileUtils.

Lemma split_on_nonempty sep (s : string) : split_on sep s ≠ [].
Proof.
  destruct s as [|c s]; simpl; [done|].
  destruct (Ascii.eqb c sep); [done|]. by destruct (split_on sep s).
Qed.

(** No piece of a split contains the separator. *)
Lemma split_on_pieces_lack sep (s : string) :
  Forall (λ piece, lacks sep piece = true) (split_on sep s).
Proof.
  induction s as [|c s IH]; simpl; [by repeat constructor|].
  destruct (Ascii.eqb c sep) eqn:Hc; [by constructor|].
  destruct (split_on sep s) as [|t ts].
  - repeat constructor. unfold lacks. simpl. by rewrite Hc.
  - inversion IH as [|? ? Ht Hts]; subst. constructor; [|done].
    unfold lacks in *. simpl. by rewrite Hc.
Qed.

Lemma length_split_on sep (s : string) :
  length (split_on sep s) = S (count_char sep s).
Proof.
  induction s as [|c s IH]; simpl; [done|].
  destruct (Ascii.eqb c sep); simpl; [by rewrite IH|].
  destruct (split_on sep s) as [|t ts]; simpl in *; [done | lia].
Qed.

(** Text without the separator stays in the first piece. *)
Lemma split_on_app_head sep (a b : string) :
  lacks sep a = true →
  ∃ piece pieces, split_on sep b = piece :: pieces
                  ∧ split_on sep (a +:+ b) = (a +:+ piece) :: pieces.
Proof.
  unfold lacks. induction a as [|c a IH]; intros Ha.
  - destruct (split_on sep b) as [|piece pieces] eqn:Hb;
      [by destruct (split_on_nonempty sep b)|].
    exists piece, pieces. by rewrite !app_empty_l.
  - simpl in Ha. apply andb_prop in Ha as [Hc Ha]. apply negb_true_iff in Hc.
    destruct (IH Ha) as (piece & pieces & Hb & Hab).
    exists piece, pieces. split; [done|].
    rewrite !app_cons_str. simpl. by rewrite Hc, Hab.
Qed.

Lemma split_on_app_sep sep (a b : string) :
  split_on sep (a +:+ String sep b) = (split_on sep a ++ split_on sep b)%list.
Proof.
  induction a as [|c a IH].
  - rewrite app_empty_l. simpl. by rewrite Ascii.eqb_refl.
  - rewrite app_cons_str. simpl. rewrite IH.
    destruct (Ascii.eqb c sep); [done|].
    destruct (split_on sep a) as [|t ts] eqn:Ha; [|done].
    by destruct (split_on_nonempty sep a).
Qed.

Lemma parse_image_filename_id (filename document_id : string)
    (page_num img_index : Z) :
  parse_image_filename filename = Return (document_id, page_num, img_index) →
  lacks "_" document_id = true
  ∧ head (split_on "_" filename) = Some document_id.
Proof.
  unfold parse_image_filename, index.
  pose proof (split_on_pieces_lack "_" filename) as Hpieces.
  destruct (split_on "_" filename) as [|first rest]; [done|].
  cbn [lookup list_lookup mbind outcome_bind bind].
  destruct (rest !! 1%nat) as [page_field|];
    cbn [mbind outcome_bind bind]; [|done].
  destruct (int page_field) as [n|]; cbn [mbind outcome_bind bind]; [|done].
  destruct (rest !! 3%nat) as [image_field|];
    cbn [mbind outcome_bind bind]; [|done].
  destruct (split_on "." image_field !! 0%nat) as [index_field|];
    cbn [mbind outcome_bind bind]; [|done].
  destruct (int index_field) as [i|]; cbn [mbind outcome_bind bind]; [|done].
  intros [= <- _ _]. split; [|done]. by inversion Hpieces.
Qed.

(** X1. The document id that [parse_image_filename] returns never contains
    an underscore: it is the text before the first underscore of the
    filename. *)
Theorem parse_image_filename_id_lacks_underscore (filename document_id : string)
    (page_num img_index : Z) :
  parse_image_filename filename = Return (document_id, page_num, img_index) →
  lacks "_" document_id = true
  ∧ head (split_on "_" filename) = Some document_id.
Proof. apply parse_image_filename_id. Qed.

Lemma parse_image_filename_id_lacks_underscore_witness :
  lacks "_" "ab" = true
  ∧ head (split_on "_" "ab_cd_7_page_2.png") = Some "ab".
Proof.
  apply (parse_image_filename_id_lacks_underscore "ab_cd_7_page_2.png" "ab" 7 2).
  reflexivity.
Defined.

(** X2. A filename with fewer than four underscores is not parsed:
    [parse_image_filename] raises. *)
Theorem parse_image_filename_few_fields (filename : string) :
  (count_char "_" filename < 4)%nat →
  raises (parse_image_filename filename).
Proof.
  intros Hcount. unfold parse_image_filename, index, raises.
  pose proof (length_split_on "_" filename) as Hlen.
  destruct (split_on "_" filename !! 4%nat) as [x|] eqn:Hfifth.
  { apply lookup_lt_Some in Hfifth. lia. }
  destruct (split_on "_" filename !! 0%nat);
    cbn [mbind outcome_bind bind]; [|by eexists].
  destruct (split_on "_" filename !! 2%nat);
    cbn [mbind outcome_bind bind]; [|by eexists].
  destruct (int _); cbn [mbind outcome_bind bind]; by eexists.
Qed.

Lemma parse_image_filename_few_fields_witness :
  raises (parse_image_filename "test_image.png").
Proof. apply parse_image_filename_few_fields. simpl. lia. Defined.

(** X3. [parse_image_filename] reads the first, third and fifth field only:
    the words between them need not be [page] and [image], and whatever
    follows the first dot of the fifth field plays no part. *)
Theorem parse_image_filename_fields (document_id word1 word2 rest : string)
    (n i : Z) :
  lacks "_" document_id = true →
  lacks "_" word1 = true →
  lacks "_" word2 = true →
  parse_image_filename
    (document_id +:+ "_" +:+ word1 +:+ "_" +:+ str n +:+ "_" +:+ word2 +:+ "_"
       +:+ str i +:+ "." +:+ rest)
  = Return (document_id, n, i).
Proof.
  intros Hid Hw1 Hw2.
  assert (lacks "_" (str i +:+ ".") = true) as Hlast.
  { rewrite lacks_app. apply andb_true_intro. split; [by apply str_no_sep | done]. }
  destruct (split_on_app_head "_" (str i +:+ ".") rest Hlast)
    as (piece & pieces & _ & Hsplit).
  unfold parse_image_filename.
  change (document_id +:+ "_" +:+ word1 +:+ "_" +:+ str n +:+ "_" +:+ word2 +:+ "_"
            +:+ str i +:+ "." +:+ rest)
    with (document_id +:+ String "_" (word1 +:+ String "_" (str n +:+ String "_"
            (word2 +:+ String "_" (str i +:+ "." +:+ rest))))).
  rewrite (split_on_cons _ document_id) by exact Hid.
  rewrite (split_on_cons _ word1) by exact Hw1.
  rewrite (split_on_cons _ (str n)) by by apply str_no_sep.
  rewrite (split_on_cons _ word2) by exact Hw2.
  rewrite <- app_assoc_str, Hsplit.
  cbn [index lookup list_lookup mbind outcome_bind bind].
  rewrite int_str. cbn [mbind outcome_bind bind].
  rewrite app_assoc_str.
  change ("." +:+ piece) with (String "." piece).
  rewrite (split_on_cons _ (str i)) by by apply str_no_sep.
  cbn [index lookup list_lookup mbind outcome_bind bind].
  rewrite int_str. reflexivity.
Qed.

Lemma parse_image_filename_fields_witness :
  parse_image_filename
    ("doc" +:+ "_" +:+ "p" +:+ "_" +:+ str 3 +:+ "_" +:+ "img" +:+ "_"
       +:+ str 1 +:+ "." +:+ "tar_v2.gz")
  = Return ("doc", 3, 1).
Proof. by apply parse_image_filename_fields. Defined.

(** X4. The condition of the round trip on the document id is needed: for
    an id that contains an underscore, parsing the generated filename never
    gives the id back, whatever the numbers and the extension. *)
Theorem parse_image_filename_underscore_in_id (document_id ext : string)
    (n i n' i' : Z) :
  lacks "_" document_id = false →
  parse_image_filename (image_filename document_id n i ext)
  ≠ Return (document_id, n', i').
Proof.
  intros Hid Hparse. apply parse_image_filename_id in Hparse as [Hlacks _].
  congruence.
Qed.

Lemma parse_image_filename_underscore_in_id_witness :
  parse_image_filename (image_filename "ab_cd" 1 2 "png") ≠ Return ("ab_cd", 1, 2).
Proof. by apply parse_image_filename_underscore_in_id. Defined.

End splitting.

(** ** Documents: creating, fetching, listing *)

Section documents.

Import PDFRepository.

Implicit Types (db : Session) (d : PDFDocument).

(** X5. [get_document] finds every stored id: it returns [None] exactly for
    the ids that no stored document has, and otherwise the first stored
    document with the id. *)
Theorem get_document_first_match db (document_id : string) :
  (get_document db document_id = None
     ↔ ∀ d, d ∈ pdf_documents (database db) → doc_id d ≠ document_id)
  ∧ (∀ d, get_document db document_id = Some d →
       ∃ before after,
         pdf_documents (database db) = (before ++ d :: after)%list
         ∧ doc_id d = document_id
         ∧ ∀ d', d' ∈ before → doc_id d' ≠ document_id).
Proof.
  unfold get_document. generalize (pdf_documents (database db)). intros docs.
  split.
  - split.
    + intros Hnone d Hin Hid.
      assert (d ∈ filter (λ d, doc_id d = document_id) docs) as Hd
        by by apply list_elem_of_filter.
      destruct (filter _ docs); [by apply elem_of_nil in Hd | done].
    + intros Habsent.
      destruct (filter _ docs) as [|d rest] eqn:Hfilter; [done|].
      assert (d ∈ filter (λ d, doc_id d = document_id) docs) as Hd
        by (rewrite Hfilter; apply list_elem_of_here).
      apply list_elem_of_filter in Hd as [Hid Hin]. by destruct (Habsent d Hin).
  - induction docs as [|d0 docs IH]; intros d; [done|].
    rewrite filter_cons. destruct (decide (doc_id d0 = document_id)) as [Hid | Hid].
    + simpl. intros [= ->]. exists [], docs. repeat split; [done|].
      intros d' Hd'. by apply elem_of_nil in Hd'.
    + intros Hd. destruct (IH d Hd) as (before & after & -> & Hdid & Hbefore).
      exists (d0 :: before), after. repeat split; [done|].
      intros d' [-> | Hd']%elem_of_cons; auto.
Qed.

Lemma get_document_first_match_witness :
  ∃ before after,
    pdf_documents (database Samples.session)
    = (before ++ Samples.old_doc :: after)%list
    ∧ doc_id Samples.old_doc = "old-doc-id"
    ∧ ∀ d', d' ∈ before → doc_id d' ≠ "old-doc-id".
Proof.
  apply (get_document_first_match Samples.session "old-doc-id"). reflexivity.
Defined.

(** With creation times that are all different, the ordered query has one
    answer only. *)
Lemma newest_first_unique (rows answer1 answer2 : list PDFDocument) :
  NoDup (doc_created_at <$> rows) →
  newest_first rows answer1 → newest_first rows answer2 → answer1 = answer2.
Proof.
  intros Hdistinct [Hperm1 Hsorted1] [Hperm2 Hsorted2].
  assert (NoDup (doc_created_at <$> answer1)) as Hdistinct1 by by rewrite Hperm1.
  assert (answer1 ≡ₚ answer2) as Hperm by by rewrite Hperm1, Hperm2.
  clear Hdistinct Hperm1 Hperm2 rows.
  revert answer2 Hsorted2 Hperm.
  induction answer1 as [|x l1 IH]; intros l2 Hsorted2 Hperm.
  { by apply Permutation_nil_l in Hperm. }
  destruct l2 as [|y l2]; [by apply Permutation_nil_r in Hperm|].
  apply StronglySorted_inv in Hsorted1 as [Hsorted1 Hx].
  apply StronglySorted_inv in Hsorted2 as [Hsorted2 Hy].
  rewrite fmap_cons in Hdistinct1. apply NoDup_cons in Hdistinct1 as [Hfresh Hdistinct1].
  assert (x = y) as <-.
  { assert (x ∈ y :: l2) as Hxin by (rewrite <- Hperm; apply list_elem_of_here).
    assert (y ∈ x :: l1) as Hyin by (rewrite Hperm; apply list_elem_of_here).
    apply elem_of_cons in Hxin as [-> | Hxin]; [done|].
    apply elem_of_cons in Hyin as [-> | Hyin]; [done|].
    pose proof (proj1 (Forall_forall _ _) Hx y Hyin) as Hxy.
    pose proof (proj1 (Forall_forall _ _) Hy x Hxin) as Hyx.
    unfold newer_or_same in Hxy, Hyx. destruct Hfresh.
    apply list_elem_of_fmap. exists y. split; [lia | done]. }
  f_equal. apply IH; [done | done | done |].
  by apply (Permutation_cons_inv Hperm).
Qed.

Lemma order_by_created_at_desc_newest_first (rows : list PDFDocument) :
  newest_first rows (order_by_created_at_desc rows).
Proof.
  split; [apply merge_sort_Permutation|].
  apply (StronglySorted_merge_sort newer_or_same).
Qed.

(** X6. When the stored documents have creation times that are all
    different, consecutive pages tile the listing whatever order the
    database gives to each query: the page of [a] documents after [skip]
    of one answer, followed by the page of [b] documents after [skip + a] of
    another answer, is the page of [a + b] documents after [skip] that
    [list_documents] returns. *)
Theorem list_documents_pages_tile db (skip a b : nat)
    (answer1 answer2 : list PDFDocument) :
  NoDup (doc_created_at <$> pdf_documents (database db)) →
  newest_first (pdf_documents (database db)) answer1 →
  newest_first (pdf_documents (database db)) answer2 →
  take a (drop skip answer1) = list_documents db skip a
  ∧ take b (drop (skip + a) answer2) = list_documents db (skip + a) b
  ∧ (take a (drop skip answer1) ++ take b (drop (skip + a) answer2))%list
    = list_documents db skip (a + b).
Proof.
  intros Hdistinct Hanswer1 Hanswer2. unfold list_documents.
  pose proof (order_by_created_at_desc_newest_first (pdf_documents (database db)))
    as Hmodel.
  rewrite (newest_first_unique _ _ _ Hdistinct Hanswer1 Hmodel).
  rewrite (newest_first_unique _ _ _ Hdistinct Hanswer2 Hmodel).
  split; [done|]. split; [done|].
  rewrite <- drop_drop. apply take_take_drop.
Qed.

Lemma list_documents_pages_tile_witness :
  ([Samples.recent_doc] ++ [Samples.boundary_doc; Samples.old_doc])%list
  = list_documents Samples.session 0 (1 + 2).
Proof.
  apply (list_documents_pages_tile Samples.session 0 1 2
           [Samples.recent_doc; Samples.boundary_doc; Samples.old_doc;
            Samples.older_doc]
           [Samples.recent_doc; Samples.boundary_doc; Samples.old_doc;
            Samples.older_doc]).
  - simpl.
    repeat (apply NoDup_cons_2;
            [intros Hx;
             repeat (apply elem_of_cons in Hx as [Hx | Hx]; [discriminate Hx|]);
             by apply elem_of_nil in Hx|]).
    apply NoDup_nil_2.
  - split; [apply (order_by_created_at_desc_newest_first (pdf_documents Samples.rows))|].
    apply (order_by_created_at_desc_newest_first (pdf_documents Samples.rows)).
  - split; [apply (order_by_created_at_desc_newest_first (pdf_documents Samples.rows))|].
    apply (order_by_created_at_desc_newest_first (pdf_documents Samples.rows)).
Defined.

(** X7. A page of [list_documents] holds stored documents only, in the
    order of the full listing, and no document twice when none is stored
    twice. *)
Theorem list_documents_sublist db (skip limit : nat) :
  list_documents db skip limit
    `sublist_of` order_by_created_at_desc (pdf_documents (database db))
  ∧ (∀ d, d ∈ list_documents db skip limit → d ∈ pdf_documents (database db))
  ∧ (NoDup (pdf_documents (database db)) → NoDup (list_documents db skip limit)).
Proof.
  assert (list_documents db skip limit
            `sublist_of` order_by_created_at_desc (pdf_documents (database db)))
    as Hsub.
  { unfold list_documents. etrans; [apply sublist_take | apply sublist_drop]. }
  split; [done|]. split.
  - intros d Hd. unfold order_by_created_at_desc in Hsub.
    rewrite <- (merge_sort_Permutation newer_or_same).
    by apply (sublist_subseteq _ _ Hsub).
  - intros Hnodup. eapply sublist_NoDup; [|exact Hsub].
    unfold order_by_created_at_desc. by rewrite merge_sort_Permutation.
Qed.

Lemma list_documents_sublist_witness :
  NoDup (list_documents Samples.session 1 2).
Proof.
  apply (list_documents_sublist Samples.session 1 2). simpl.
  repeat (apply NoDup_cons_2;
          [intros Hx;
           repeat (apply elem_of_cons in Hx as [Hx | Hx]; [discriminate Hx|]);
           by apply elem_of_nil in Hx|]).
  apply NoDup_nil_2.
Defined.

(** X8. With no skip and a limit that is not smaller than the number of
    stored documents, [list_documents] returns every stored document once;
    a skip that is not smaller than that number gives the empty page. *)
Theorem list_documents_whole db (skip limit : nat) :
  ((length (pdf_documents (database db)) ≤ limit)%nat →
     list_documents db 0 limit ≡ₚ pdf_documents (database db))
  ∧ ((length (pdf_documents (database db)) ≤ skip)%nat →
     list_documents db skip limit = []).
Proof.
  unfold list_documents, order_by_created_at_desc.
  pose proof (merge_sort_Permutation newer_or_same (pdf_documents (database db)))
    as Hperm.
  split; intros Hlen.
  - rewrite drop_0, take_ge; [done|]. by rewrite (Permutation_length Hperm).
  - rewrite drop_ge; [by rewrite take_nil|]. by rewrite (Permutation_length Hperm).
Qed.

Lemma list_documents_whole_witness :
  list_documents Samples.session 0 4 ≡ₚ pdf_documents (database Samples.session)
  ∧ list_documents Samples.session 4 10 = [].
Proof.
  split.
  - apply (list_documents_whole Samples.session 0 4). simpl. lia.
  - apply (list_documents_whole Samples.session 4 10). simpl. lia.
Defined.

End documents.

(** ** Bulk insert of text rows, continued *)

Section text_rows.

Import PDFRepository.

Implicit Types (db : Session) (items : list (string * string)).

Lemma add_text_contents_app (document_id : string) items1 : ∀ items2 acc db,
  add_text_contents document_id (items1 ++ items2) acc db
  = match add_text_contents document_id items1 acc db with
    | (db', Return acc') => add_text_contents document_id items2 acc' db'
    | (db', Raise e) => (db', Raise e)
    end.
Proof.
  induction items1 as [|[page_key content] items1 IH]; intros items2 acc db; [done|].
  simpl. destruct (page_number_of_key page_key); [apply IH | done].
Qed.

(** When every key can be read, the loop adds the same rows whatever the
    session holds. *)
Lemma add_text_contents_returns (document_id : string) items :
  (∀ item, item ∈ items → returns (page_number_of_key item.1)) →
  ∃ new, Forall2 (row_of_item document_id) items new
         ∧ ∀ acc db,
             add_text_contents document_id items acc db
             = ({| database := database db; pending := pending db ++ new |},
                Return (acc ++ new)%list).
Proof.
  induction items as [|[page_key content] items IH]; intros Hkeys.
  - exists []. split; [constructor|]. intros acc [stored waiting]. simpl.
    by rewrite !app_nil_r.
  - destruct (Hkeys (page_key, content)) as [n Hn]; [apply list_elem_of_here|].
    destruct IH as (new & Hrows & Hadd).
    { intros item Hitem. apply Hkeys. by apply list_elem_of_further. }
    simpl in Hn.
    exists ({| text_document_id := document_id; text_page_number := n;
               text_content := content |} :: new).
    split; [constructor; [by repeat split | done]|].
    intros acc db. cbn [add_text_contents]. rewrite Hn, Hadd. simpl.
    by rewrite <- !app_assoc.
Qed.

Lemma save_text_content_stops db (document_id : string) items
    (page_key content : string) (rest : list (string * string)) (e : exn) :
  (∀ item, item ∈ items → returns (page_number_of_key item.1)) →
  page_number_of_key page_key = Raise e →
  ∃ rows, Forall2 (row_of_item document_id) items rows
          ∧ save_text_content db document_id (items ++ (page_key, content) :: rest)
            = ({| database := database db; pending := pending db ++ rows |},
               Raise e).
Proof.
  intros Hkeys Hbad.
  destruct (add_text_contents_returns document_id items Hkeys) as (rows & Hrows & Hadd).
  exists rows. split; [done|].
  unfold save_text_content. rewrite add_text_contents_app, Hadd.
  cbn [add_text_contents]. by rewrite Hbad.
Qed.

(** X9. [save_text_content] stops at the first key that cannot be read: it
    raises the exception of that key, commits nothing, and leaves the rows of
    the items before it pending in the session. *)
Theorem save_text_content_first_bad_key db (document_id : string) items
    (page_key content : string) (rest : list (string * string)) (e : exn) :
  (∀ item, item ∈ items → returns (page_number_of_key item.1)) →
  page_number_of_key page_key = Raise e →
  ∃ rows, Forall2 (row_of_item document_id) items rows
          ∧ save_text_content db document_id (items ++ (page_key, content) :: rest)
            = ({| database := database db; pending := pending db ++ rows |},
               Raise e).
Proof. apply save_text_content_stops. Qed.

Lemma save_text_content_first_bad_key_witness :
  ∃ rows, Forall2 (row_of_item "old-doc-id") [("Page 1", "Test text content")] rows
          ∧ save_text_content Samples.session "old-doc-id"
              ([("Page 1", "Test text content")] ++ ("Page two", "More text") :: [])
            = ({| database := database Samples.session;
                  pending := pending Samples.session ++ rows |},
               Raise (ValueError "invalid literal for int() with base 10: 'two'")).
Proof.
  apply save_text_content_first_bad_key; [|reflexivity].
  apply Forall_forall. repeat constructor. eexists. reflexivity.
Defined.

(** X10. Nothing rolls the session back after a failed call: the rows that
    the failed call left pending are committed by the next call of
    [save_text_content] on the same session, together with the rows of that
    call. *)
Theorem save_text_content_commits_leftover db (document_id later_id : string)
    items (page_key content : string) (rest later : list (string * string))
    (e : exn) :
  (∀ item, item ∈ items → returns (page_number_of_key item.1)) →
  page_number_of_key page_key = Raise e →
  (∀ item, item ∈ later → returns (page_number_of_key item.1)) →
  ∃ rows later_rows db',
    Forall2 (row_of_item document_id) items rows
    ∧ Forall2 (row_of_item later_id) later later_rows
    ∧ save_text_content
        (save_text_content db document_id (items ++ (page_key, content) :: rest)).1
        later_id later
      = (db', Return later_rows)
    ∧ text_contents (database db')
      = (text_contents (database db) ++ pending db ++ rows ++ later_rows)%list.
Proof.
  intros Hkeys Hbad Hlater.
  destruct (save_text_content_stops db document_id items page_key content
              rest e Hkeys Hbad) as (rows & Hrows & ->).
  destruct (add_text_contents_returns later_id later Hlater)
    as (later_rows & Hlater_rows & Hadd).
  exists rows, later_rows. eexists. split; [done|]. split; [done|].
  unfold save_text_content. rewrite Hadd. simpl. split; [reflexivity|].
  by rewrite <- !app_assoc.
Qed.

Lemma save_text_content_commits_leftover_witness :
  ∃ rows later_rows db',
    Forall2 (row_of_item "old-doc-id") [("Page 1", "Test text content")] rows
    ∧ Forall2 (row_of_item "older-doc-id") [("Page 7", "Later text")] later_rows
    ∧ save_text_content
        (save_text_content Samples.session "old-doc-id"
           ([("Page 1", "Test text content")] ++ ("Page two", "More text") :: [])).1
        "older-doc-id" [("Page 7", "Later text")]
      = (db', Return later_rows)
    ∧ text_contents (database db')
      = (text_contents (database Samples.session) ++ pending Samples.session
         ++ rows ++ later_rows)%list.
Proof.
  apply (save_text_content_commits_leftover Samples.session "old-doc-id"
           "older-doc-id" [("Page 1", "Test text content")] "Page two" "More text"
           [] [("Page 7", "Later text")]
           (ValueError "invalid literal for int() with base 10: 'two'")).
  - apply Forall_forall. repeat constructor. eexists. reflexivity.
  - reflexivity.
  - apply Forall_forall. repeat constructor. eexists. reflexivity.
Defined.

(** X11. Two calls of [save_text_content] that succeed one after the other
    leave the session as one call with both mappings does, and return
    between them the rows that the one call returns. *)
Theorem save_text_content_twice db (document_id : string) items1 items2 :
  (∀ item, item ∈ (items1 ++ items2)%list → returns (page_number_of_key item.1)) →
  ∃ rows1 rows2 db1 db2,
    save_text_content db document_id items1 = (db1, Return rows1)
    ∧ save_text_content db1 document_id items2 = (db2, Return rows2)
    ∧ save_text_content db document_id (items1 ++ items2)
      = (db2, Return (rows1 ++ rows2)%list).
Proof.
  intros Hkeys.
  destruct (add_text_contents_returns document_id items1) as (rows1 & _ & Hadd1).
  { intros item Hitem. apply Hkeys, elem_of_app. by left. }
  destruct (add_text_contents_returns document_id items2) as (rows2 & _ & Hadd2).
  { intros item Hitem. apply Hkeys, elem_of_app. by right. }
  exists rows1, rows2. do 2 eexists.
  unfold save_text_content. rewrite add_text_contents_app, !Hadd1.
  split; [reflexivity|]. rewrite !Hadd2. split; [reflexivity|].
  unfold commit. simpl. by rewrite <- !app_assoc.
Qed.

Lemma save_text_content_twice_witness :
  ∃ rows1 rows2 db1 db2,
    save_text_content Samples.session "old-doc-id" [("Page 1", "a")]
    = (db1, Return rows1)
    ∧ save_text_content db1 "old-doc-id" [("Page 2", "b")] = (db2, Return rows2)
    ∧ save_text_content Samples.session "old-doc-id"
        ([("Page 1", "a")] ++ [("Page 2", "b")])
      = (db2, Return (rows1 ++ rows2)%list).
Proof.
  apply save_text_content_twice.
  apply Forall_forall. repeat constructor; eexists; reflexivity.
Defined.

(** X12. [save_text_content] does not look at the word of a page key: any
    text without whitespace before the number serves, and whatever follows
    the number after whitespace is ignored. *)
Theorem page_number_of_key_any_word (word trailing : string) (n : Z) :
  word ≠ "" →
  string_forall (λ c, negb (is_space c)) word = true →
  page_number_of_key (word +:+ " " +:+ str n) = Return n
  ∧ page_number_of_key (word +:+ " " +:+ str n +:+ " " +:+ trailing) = Return n.
Proof.
  intros Hword Hchars.
  assert (String.eqb ("" +:+ word) "" = false) as Hnonempty.
  { rewrite app_empty_l. by apply String.eqb_neq. }
  assert (String.eqb (str n) "" = false) as Hdigits.
  { apply String.eqb_neq. intros Hempty.
    pose proof (int_literal_str n) as Hn. rewrite Hempty in Hn. discriminate. }
  unfold page_number_of_key, split_ws. split.
  - replace (word +:+ " " +:+ str n) with (word +:+ String " " (str n +:+ ""))
      by (by rewrite app_empty_r).
    rewrite (split_ws_go_run word) by done.
    cbn [split_ws_go]. change (is_space " ") with true. cbv iota.
    rewrite Hnonempty.
    rewrite (split_ws_go_run (str n)) by apply str_no_space.
    cbn [split_ws_go]. change ("" +:+ str n) with (str n). rewrite Hdigits.
    cbn [index lookup list_lookup mbind outcome_bind bind]. apply int_str.
  - change (word +:+ " " +:+ str n +:+ " " +:+ trailing)
      with (word +:+ String " " (str n +:+ String " " trailing)).
    rewrite (split_ws_go_run word) by done.
    cbn [split_ws_go]. change (is_space " ") with true. cbv iota.
    rewrite Hnonempty.
    rewrite (split_ws_go_run (str n)) by apply str_no_space.
    cbn [split_ws_go]. change (is_space " ") with true. cbv iota.
    change ("" +:+ str n) with (str n). rewrite Hdigits.
    cbn [index lookup list_lookup mbind outcome_bind bind]. apply int_str.
Qed.

Lemma page_number_of_key_any_word_witness :
  page_number_of_key ("Seite" +:+ " " +:+ str 4) = Return 4
  ∧ page_number_of_key ("Seite" +:+ " " +:+ str 4 +:+ " " +:+ "von 9") = Return 4.
Proof. by apply page_number_of_key_any_word. Defined.

End text_rows.

(** ** Uploading and creating a document *)

Section creating.

Import PDFRepository.

Implicit Types (db : Session) (settings : Settings) (d : PDFDocument).

Lemma basename_lacks_slash (p : string) : lacks "/" (basename p) = true.
Proof.
  unfold basename. pose proof (split_on_pieces_lack "/" p) as Hpieces.
  destruct (last (split_on "/" p)) as [piece|] eqn:Hlast; [|done].
  apply last_Some_elem_of in Hlast. simpl.
  by apply (proj1 (Forall_forall _ _) Hpieces).
Qed.

Lemma basename_after_slash (a name : string) :
  lacks "/" name = true → basename (a +:+ String "/" name) = name.
Proof.
  intros Hname. unfold basename.
  by rewrite split_on_app_sep, (split_on_whole _ _ Hname), last_snoc.
Qed.

Lemma ends_with_slash_inv (a : string) :
  ends_with_slash a = true → ∃ a', a = a' +:+ "/".
Proof.
  induction a as [|c a IH]; [done|]. simpl.
  destruct a as [|c' a].
  - intros ->%Ascii.eqb_eq. by exists "".
  - intros Hends. destruct (IH Hends) as [a' ->]. by exists (String c a').
Qed.

Lemma basename_path_join (a name : string) :
  lacks "/" name = true → basename (path_join a name) = name.
Proof.
  intros Hname. unfold path_join.
  assert (starts_with_slash name = false) as ->.
  { destruct name as [|c name]; [done|]. unfold lacks in Hname. simpl in Hname.
    apply andb_prop in Hname as [Hc _]. apply negb_true_iff in Hc.
    unfold starts_with_slash.
    destruct (Ascii.eqb_spec c "/") as [-> |]; [done|].
    destruct c as [[] [] [] [] [] [] [] []]; done. }
  destruct (String.eqb_spec a "") as [-> | Ha]; simpl.
  - rewrite app_empty_l. unfold basename. by rewrite (split_on_whole _ _ Hname).
  - destruct (ends_with_slash a) eqn:Hends.
    + apply ends_with_slash_inv in Hends as [a' ->].
      rewrite app_assoc_str. by apply basename_after_slash.
    + by apply (basename_after_slash a name).
Qed.

(** X13. The filename that [create_document] stores never contains a slash,
    whatever the path of the upload: the new row carries the given id, the
    name of the upload as original filename, and as filename the last
    component of the path. *)
Theorem create_document_row db (file_info : FileInfo) (uuid : string) (now : Z)
    (db' : Session) d :
  create_document db file_info uuid now = Return (db', d) →
  lacks "/" (doc_filename d) = true
  ∧ doc_id d = uuid
  ∧ doc_original_filename d = info_filename file_info
  ∧ doc_created_at d = now
  ∧ pdf_documents (database db') = (pdf_documents (database db) ++ [d])%list.
Proof.
  unfold create_document. destruct (bool_decide _); [done|].
  intros [= <- <-]. simpl. split; [apply basename_lacks_slash | done].
Qed.

Lemma create_document_row_witness :
  lacks "/" "c.pdf" = true
  ∧ doc_id {| doc_id := "new-id"; doc_filename := "c.pdf";
              doc_original_filename := "c.pdf"; doc_created_at := Samples.now |}
    = "new-id".
Proof.
  destruct (create_document_row Samples.session
              {| info_filename := "c.pdf"; info_path := "/app/uploads/pdfs/a/b/c.pdf" |}
              "new-id" Samples.now
              {| database :=
                   {| pdf_documents :=
                        (pdf_documents Samples.rows
                         ++ [{| doc_id := "new-id"; doc_filename := "c.pdf";
                                doc_original_filename := "c.pdf";
                                doc_created_at := Samples.now |}])%list;
                      text_contents := text_contents Samples.rows;
                      images := images Samples.rows;
                      tables := tables Samples.rows |};
                 pending := [] |}
              {| doc_id := "new-id"; doc_filename := "c.pdf";
                 doc_original_filename := "c.pdf"; doc_created_at := Samples.now |})
    as (Hslash & Hid & _); [reflexivity|].
  by split.
Defined.

(** X14. From upload to sweep: for an upload whose filename has no slash,
    the path under which [save_upload_file] writes the file is the path at
    which the sweep looks for the PDF of the document that
    [create_document] makes of it. *)
Theorem upload_path_is_sweep_path settings (file_filename uuid : string) (now : Z)
    (disk disk' : gset string) db (db' : Session) (file_info : FileInfo) d :
  lacks "/" file_filename = true →
  save_upload_file settings file_filename None None disk = (disk', Return file_info) →
  create_document db file_info uuid now = Return (db', d) →
  pdf_path settings d = info_path file_info
  ∧ info_path file_info ∈ disk'
  ∧ doc_original_filename d = file_filename.
Proof.
  intros Hname. unfold save_upload_file. intros [= <- <-].
  unfold create_document. destruct (bool_decide _); [done|].
  intros [= _ <-]. unfold pdf_path. simpl.
  rewrite basename_path_join by done.
  split; [done|]. split; [|done].
  apply elem_of_union. right. by apply elem_of_singleton.
Qed.

Lemma upload_path_is_sweep_path_witness :
  pdf_path Samples.settings
    {| doc_id := "new-id"; doc_filename := "fresh.pdf";
       doc_original_filename := "fresh.pdf"; doc_created_at := Samples.now |}
  = "/app/uploads/pdfs/fresh.pdf".
Proof.
  destruct (upload_path_is_sweep_path Samples.settings "fresh.pdf" "new-id"
              Samples.now ∅ (∅ ∪ {["/app/uploads/pdfs/fresh.pdf"]})
              Samples.session
              {| database :=
                   {| pdf_documents :=
                        (pdf_documents Samples.rows
                         ++ [{| doc_id := "new-id"; doc_filename := "fresh.pdf";
                                doc_original_filename := "fresh.pdf";
                                doc_created_at := Samples.now |}])%list;
                      text_contents := text_contents Samples.rows;
                      images := images Samples.rows;
                      tables := tables Samples.rows |};
                 pending := [] |}
              {| info_filename := "fresh.pdf";
                 info_path := "/app/uploads/pdfs/fresh.pdf" |}
              {| doc_id := "new-id"; doc_filename := "fresh.pdf";
                 doc_original_filename := "fresh.pdf"; doc_created_at := Samples.now |})
    as (Hpath & _); [reflexivity | reflexivity | reflexivity |].
  exact Hpath.
Defined.

(** X15. [create_document] succeeds exactly for an id that is not stored
    yet. The document it returns is then what [get_document] finds under
    that id, the lookups of all other ids are as before, and the text rows
    that were pending in the session are committed with it. *)
Theorem create_document_then_get db (file_info : FileInfo) (uuid : string) (now : Z) :
  (uuid ∈ doc_id <$> pdf_documents (database db) →
     raises (create_document db file_info uuid now))
  ∧ (uuid ∉ doc_id <$> pdf_documents (database db) →
     ∃ db' d,
       create_document db file_info uuid now = Return (db', d)
       ∧ get_document db' uuid = Some d
       ∧ (∀ other, other ≠ uuid → get_document db' other = get_document db other)
       ∧ text_contents (database db')
         = (text_contents (database db) ++ pending db)%list
       ∧ pending db' = []).
Proof.
  unfold create_document. split; intros Hid.
  - rewrite bool_decide_eq_true_2 by done. by eexists.
  - rewrite bool_decide_eq_false_2 by done. do 2 eexists. split; [reflexivity|].
    unfold get_document. simpl. rewrite !filter_app.
    assert (filter (λ d, doc_id d = uuid) (pdf_documents (database db)) = []) as ->.
    { destruct (filter _ _) as [|d0 l] eqn:Hfilter; [done|].
      assert (d0 ∈ filter (λ d, doc_id d = uuid) (pdf_documents (database db)))
        as Hd0 by (rewrite Hfilter; apply list_elem_of_here).
      apply list_elem_of_filter in Hd0 as [Hd0 Hin]. destruct Hid.
      apply list_elem_of_fmap. by exists d0. }
    split; [by rewrite filter_cons_True|]. split; [|done].
    intros other Hother. rewrite filter_app.
    rewrite (filter_cons_False _ _ []) by (simpl; congruence).
    by rewrite filter_nil, app_nil_r.
Qed.

Lemma create_document_then_get_witness :
  raises (create_document Samples.session
            {| info_filename := "x.pdf"; info_path := "/app/uploads/pdfs/x.pdf" |}
            "old-doc-id" Samples.now)
  ∧ ∃ db' d,
      create_document Samples.session
        {| info_filename := "x.pdf"; info_path := "/app/uploads/pdfs/x.pdf" |}
        "new-id" Samples.now = Return (db', d)
      ∧ get_document db' "new-id" = Some d.
Proof.
  split.
  - apply (create_document_then_get Samples.session _ "old-doc-id" Samples.now).
    simpl. apply list_elem_of_further, list_elem_of_here.
  - destruct (create_document_then_get Samples.session
                {| info_filename := "x.pdf"; info_path := "/app/uploads/pdfs/x.pdf" |}
                "new-id" Samples.now) as [_ Hfresh].
    destruct Hfresh as (db' & d & Hcreate & Hget & _).
    + simpl. intros Hin.
      repeat (apply elem_of_cons in Hin as [Hin | Hin]; [discriminate Hin|]).
      by apply elem_of_nil in Hin.
    + by exists db', d.
Defined.

(** X16. A document created later than every stored one is the first of
    the listing. *)
Theorem create_document_heads_listing db (file_info : FileInfo) (uuid : string)
    (now : Z) (db' : Session) d (limit : nat) :
  create_document db file_info uuid now = Return (db', d) →
  (∀ d0, d0 ∈ pdf_documents (database db) → doc_created_at d0 < now) →
  head (list_documents db' 0 (S limit)) = Some d.
Proof.
  unfold create_document. destruct (bool_decide _); [done|].
  intros [= <- <-] Holder. unfold list_documents, order_by_created_at_desc. simpl.
  set (d := {| doc_id := uuid; doc_filename := basename (info_path file_info);
               doc_original_filename := info_filename file_info;
               doc_created_at := now |}).
  pose proof (merge_sort_Permutation newer_or_same
                (pdf_documents (database db) ++ [d])) as Hperm.
  pose proof (StronglySorted_merge_sort newer_or_same
                (pdf_documents (database db) ++ [d])) as Hsorted.
  destruct (merge_sort newer_or_same (pdf_documents (database db) ++ [d]))
    as [|h t].
  { apply Permutation_nil_l in Hperm. by destruct (pdf_documents (database db)). }
  simpl. f_equal.
  assert (d ∈ h :: t) as Hd.
  { rewrite Hperm. apply elem_of_app. right. apply list_elem_of_here. }
  apply elem_of_cons in Hd as [<- | Hd]; [done|].
  assert (h ∈ (pdf_documents (database db) ++ [d])%list) as Hh.
  { rewrite <- Hperm. apply list_elem_of_here. }
  apply elem_of_app in Hh as [Hh | ->%list_elem_of_singleton]; [|done].
  apply StronglySorted_inv in Hsorted as [_ Hall].
  pose proof (proj1 (Forall_forall _ _) Hall d Hd) as Hle.
  unfold newer_or_same in Hle. simpl in Hle.
  specialize (Holder h Hh). lia.
Qed.

Lemma create_document_heads_listing_witness :
  head (list_documents
          {| database :=
               {| pdf_documents :=
                    (pdf_documents Samples.rows
                     ++ [{| doc_id := "new-id"; doc_filename := "x.pdf";
                            doc_original_filename := "x.pdf";
                            doc_created_at := Samples.now |}])%list;
                  text_contents := text_contents Samples.rows;
                  images := images Samples.rows;
                  tables := tables Samples.rows |};
             pending := [] |} 0 1)
  = Some {| doc_id := "new-id"; doc_filename := "x.pdf";
            doc_original_filename := "x.pdf"; doc_created_at := Samples.now |}.
Proof.
  apply (create_document_heads_listing Samples.session
           {| info_filename := "x.pdf"; info_path := "/app/uploads/pdfs/x.pdf" |}
           "new-id" Samples.now); [reflexivity|].
  apply Forall_forall. repeat constructor.
Defined.

End creating.

(** ** The worker and its status, continued *)

Section worker_more.

Variable isoformat : Z → string.

Implicit Types (self worker : FileCleanupWorker) (settings : Settings).

(** X17. [start] and [stop] never raise: their guards keep the calls that
    the scheduler refuses (a start when running, a shutdown when stopped)
    from reaching it. After [start] the scheduler is running, with the same
    jobs by id; after [stop] it is not running, and a scheduler that was
    running has lost its jobs. The retention age is untouched. *)
Theorem start_stop_never_raise self (log : logger) :
  (∃ w, (start self log).2 = Return w
        ∧ running (scheduler w) = true
        ∧ retention_minutes w = retention_minutes self
        ∧ job_id <$> jobs (scheduler w) = job_id <$> jobs (scheduler self))
  ∧ (∃ w, (stop self log).2 = Return w
          ∧ running (scheduler w) = false
          ∧ retention_minutes w = retention_minutes self
          ∧ jobs (scheduler w)
            = if running (scheduler self) then [] else jobs (scheduler self)).
Proof.
  unfold start, stop, scheduler_start, scheduler_shutdown.
  destruct self as [retention [[] js n m f1 f2 fire] trigger]; simpl.
  - split; by eexists.
  - split; [|by eexists]. eexists. repeat split. simpl.
    rewrite <- list_fmap_compose. by apply list_fmap_ext.
Qed.

(** X18. [get_worker_status] returns exactly when the list of jobs can be
    read and either the scheduler is stopped, or the lookup of the sweep job
    succeeds, the job is registered and it has a next run time; in every
    other case it raises. *)
Theorem get_worker_status_returns_iff worker :
  returns (get_worker_status isoformat worker)
  ↔ get_jobs_fault (scheduler worker) = None
    ∧ (running (scheduler worker) = false
       ∨ (get_job_fault (scheduler worker) = None
          ∧ ∃ j t, head (filter (λ j, job_id j = "cleanup_old_files")
                           (jobs (scheduler worker))) = Some j
                   ∧ next_run_time j = Some t)).
Proof.
  unfold get_worker_status, next_run_of, get_job, get_jobs, returns.
  destruct worker as [retention [is_running js n m job_fault jobs_fault fire] trigger].
  simpl. destruct jobs_fault as [e2|].
  { split; [|intros [Hnone _]; discriminate Hnone].
    intros [st Hst]. destruct is_running; [|discriminate Hst].
    destruct job_fault; [discriminate Hst|]. simpl in Hst.
    destruct (head _) as [j|]; [|discriminate Hst]. simpl in Hst.
    destruct (next_run_time j); discriminate Hst. }
  destruct is_running.
  2: { split; [intros _; split; [done | by left] | intros _; by eexists]. }
  destruct job_fault as [e1|].
  { split; [intros [st Hst]; discriminate Hst|].
    intros [_ [Hrun | [Hnone _]]]; [discriminate Hrun | discriminate Hnone]. }
  simpl. destruct (head _) as [j|] eqn:Hhead; simpl;
    [destruct (next_run_time j) as [t|] eqn:Ht; simpl|].
  - split; [intros _ | intros _; by eexists].
    split; [done|]. right. split; [done|]. by exists j, t.
  - split; [intros [st Hst]; discriminate Hst|].
    intros [_ [Hrun | [_ (j' & t & Hj & Ht')]]]; [discriminate Hrun|].
    simplify_eq.
  - split; [intros [st Hst]; discriminate Hst|].
    intros [_ [Hrun | [_ (j' & t & Hj & _)]]]; [discriminate Hrun|].
    discriminate Hj.
Qed.

(** X19. A response of [get_worker_status] repeats the state of the
    scheduler: its running flag, the retention age of the worker and the
    number of jobs; the next run is absent exactly when the scheduler is
    stopped, and else the formatted next run time of the sweep job. *)
Theorem get_worker_status_response worker (st : WorkerStatus) :
  get_worker_status isoformat worker = Return st →
  status_running st = running (scheduler worker)
  ∧ status_retention_minutes st = retention_minutes worker
  ∧ status_job_count st = length (jobs (scheduler worker))
  ∧ (running (scheduler worker) = false → status_next_run st = None)
  ∧ (running (scheduler worker) = true →
     ∃ j t, head (filter (λ j, job_id j = "cleanup_old_files")
                    (jobs (scheduler worker))) = Some j
            ∧ next_run_time j = Some t
            ∧ status_next_run st = Some (isoformat t)).
Proof.
  unfold get_worker_status, next_run_of, get_job, get_jobs.
  destruct worker as [retention [is_running js n m job_fault jobs_fault fire] trigger].
  simpl. destruct is_running.
  2: { destruct jobs_fault; simpl; [done|]. intros [= <-]. simpl.
       repeat split; [done..|]. intros Hrun. discriminate Hrun. }
  destruct job_fault as [e1|]; simpl; [done|].
  destruct (head _) as [j|]; simpl; [|done].
  destruct (next_run_time j) as [t|] eqn:Ht; simpl; [|done].
  destruct jobs_fault; simpl; [done|]. intros [= <-]. simpl.
  repeat split; [done..| |].
  - intros Hrun. discriminate Hrun.
  - intros _. by exists j, t.
Qed.

Lemma configured_retention_returns settings (env_retention : option string) :
  ∃ retention, configured_retention settings env_retention = Return retention.
Proof.
  unfold configured_retention. destruct (truthy env_retention) as [t|]; [|by eexists].
  unfold int. destruct (int_literal (strip t)); by eexists.
Qed.

(** X20. The construction of the single instance fails only when the
    scheduler can be had neither for the configured worker nor for the
    default one: no value of the settings or of the environment makes it
    raise. *)
Theorem file_cleanup_worker_raises_iff settings (env_retention : option string)
    (first second : outcome Scheduler) (log : logger) :
  raises (file_cleanup_worker settings env_retention first second log).2
  ↔ raises first ∧ raises second.
Proof.
  unfold file_cleanup_worker, init, raises.
  destruct (configured_retention_returns settings env_retention) as [retention ->].
  destruct first as [s1|e1], second as [s2|e2]; simpl.
  - split; [intros [e He]; discriminate He | intros [[e He] _]; discriminate He].
  - split; [intros [e He]; discriminate He | intros [[e He] _]; discriminate He].
  - split; [intros [e He]; discriminate He | intros [_ [e He]]; discriminate He].
  - split; [intros _; split; by eexists | intros _; by eexists].
Qed.

End worker_more.

Lemma get_worker_status_returns_iff_witness :
  returns (get_worker_status str Samples.worker_not_initialized).
Proof.
  apply get_worker_status_returns_iff. split; [reflexivity | by left].
Defined.

Lemma get_worker_status_response_witness :
  status_running
    {| status_running := true; status_retention_minutes := 10;
       status_next_run := Some (str (Samples.now + minutes 1));
       status_job_count := 1 |}
  = true.
Proof.
  apply (get_worker_status_response str
           {| retention_minutes := 10;
              scheduler :=
                {| running := true;
                   jobs := [{| job_id := "cleanup_old_files";
                               job_name := "Cleanup old PDF files and images";
                               next_run_time := Some (Samples.now + minutes 1) |}];
                   start_calls := 1%nat; shutdown_calls := 0%nat;
                   get_job_fault := None; get_jobs_fault := None;
                   first_fire := Samples.now + minutes 1 |};
              trigger_minutes := 1 |}).
  reflexivity.
Defined.

Lemma file_cleanup_worker_raises_iff_witness :
  raises (file_cleanup_worker Samples.settings (Some "15")
            (Raise (Exception "no scheduler")) (Raise (Exception "still none"))
            []).2.
Proof.
  apply file_cleanup_worker_raises_iff. split; by eexists.
Defined.

(** ** The sweep, continued *)

Section sweep_more.

Implicit Types (w : World) (ft : Faults) (settings : Settings)
  (self : FileCleanupWorker).

(** X21. The selection grows with time and with a shorter retention age: a
    document selected at [now1] under one retention age is selected at any
    later instant under any retention age that is not longer. *)
Theorem selection_monotone (self1 self2 : FileCleanupWorker) (now1 now2 : Z)
    (database : Database) (d : PDFDocument) :
  now1 ≤ now2 →
  retention_minutes self2 ≤ retention_minutes self1 →
  d ∈ old_documents database (retention_threshold self1 now1) →
  d ∈ old_documents database (retention_threshold self2 now2).
Proof.
  unfold old_documents, retention_threshold, minutes. intros Hnow Hretention.
  rewrite !list_elem_of_filter. intros [Hold Hin]. split; [lia | done].
Qed.

Lemma selection_monotone_witness :
  Samples.old_doc
    ∈ old_documents Samples.rows
        (retention_threshold
           {| retention_minutes := 2; scheduler := BackgroundScheduler;
              trigger_minutes := 1 |}
           (Samples.now + minutes 1)).
Proof.
  apply (selection_monotone Samples.worker_10 _ Samples.now).
  - unfold minutes. lia.
  - simpl. lia.
  - rewrite old_documents_sample. apply list_elem_of_here.
Defined.

(** X22. A document that a sweep has selected is selected again by every
    later sweep of the same worker: the sweep leaves its row where it is, and
    the cutoff only moves forward. *)
Theorem selected_again self ft settings (now now' : Z) w (d : PDFDocument) :
  now ≤ now' →
  d ∈ old_documents (db w) (retention_threshold self now) →
  d ∈ old_documents (db (cleanup_old_files self ft settings now w).1)
        (retention_threshold self now').
Proof.
  intros Hnow. rewrite cleanup_old_files_db.
  unfold old_documents, retention_threshold.
  rewrite !list_elem_of_filter. intros [Hold Hin]. split; [lia | done].
Qed.

Lemma selected_again_witness :
  Samples.old_doc
    ∈ old_documents
        (db (cleanup_old_files Samples.worker_10 no_faults Samples.settings
               Samples.now Samples.files_present).1)
        (retention_threshold Samples.worker_10 (Samples.now + minutes 1)).
Proof.
  apply selected_again.
  - unfold minutes. lia.
  - change (db Samples.files_present) with Samples.rows.
    rewrite old_documents_sample. apply list_elem_of_here.
Defined.

(** X23. A sweep removes no other file than backing files of the documents
    it selected: a path that was on disk before the sweep and is not
    afterwards is the PDF path or an image path of a selected document. *)
Theorem sweep_removes_only_selected self ft settings (now : Z) w (path : string) :
  path ∈ fs w →
  path ∉ fs (cleanup_old_files self ft settings now w).1 →
  ∃ d, d ∈ old_documents (db w) (retention_threshold self now)
       ∧ path ∈ document_paths settings (db w) d.
Proof. apply cleanup_old_files_removes. Qed.

Lemma sweep_removes_only_selected_witness :
  ∃ d, d ∈ old_documents (db Samples.files_present)
             (retention_threshold Samples.worker_10 Samples.now)
       ∧ "/app/uploads/pdfs/test.pdf"
         ∈ document_paths Samples.settings (db Samples.files_present) d.
Proof.
  apply (sweep_removes_only_selected Samples.worker_10 no_faults).
  - by vm_compute.
  - by vm_compute.
Defined.

(** X24. A sweep that gets no session, whose query fails, or that finds no
    document to select removes no file; in the last case, when nothing
    fails, it returns early with two lines in the log. *)
Theorem sweep_without_documents self ft settings (now : Z) w :
  (session_fault ft ≠ None ∨ query_fault ft ≠ None
   ∨ old_documents (db w) (retention_threshold self now) = [] →
   fs (cleanup_old_files self ft settings now w).1 = fs w)
  ∧ (session_fault ft = None → query_fault ft = None → close_fault ft = None →
     old_documents (db w) (retention_threshold self now) = [] →
     log (cleanup_old_files self ft settings now w).1
     = (log w ++ [(INFO, "Running file cleanup task");
                  (INFO, "No old documents found for cleanup")])%list).
Proof.
  unfold cleanup_old_files, cleanup_body, finally_close, cleanup_session. split.
  - intros Hcase. destruct (session_fault ft) as [e|] eqn:Hsession; [done|].
    destruct (query_fault ft) as [e|] eqn:Hquery.
    { by destruct (close_fault ft). }
    destruct Hcase as [? | [? | Hnone]]; [done | done |].
    change (db (log_to INFO "Running file cleanup task" w)) with (db w).
    rewrite Hnone. by destruct (close_fault ft).
  - intros -> -> -> Hnone.
    change (db (log_to INFO "Running file cleanup task" w)) with (db w).
    rewrite Hnone. simpl. unfold emit. by rewrite <- app_assoc.
Qed.

Lemma sweep_without_documents_witness :
  fs (cleanup_old_files Samples.worker_10 Samples.database_down Samples.settings
        Samples.now Samples.files_present).1
  = fs Samples.files_present.
Proof.
  apply sweep_without_documents. left. discriminate.
Defined.

End sweep_more.

(** ** What a sweep logs when nothing fails *)

Section sweep_log.

Implicit Types (w : World) (ft : Faults) (settings : Settings)
  (self : FileCleanupWorker).

Lemma adds_no_error_refl w : adds_no_error w w.
Proof. intros r Hr. by left. Qed.

Lemma adds_no_error_trans w1 w2 w3 :
  adds_no_error w1 w2 → adds_no_error w2 w3 → adds_no_error w1 w3.
Proof.
  intros H12 H23 r Hr. destruct (H23 r Hr) as [Hr2 | Hok]; [by apply H12 | by right].
Qed.

Lemma adds_no_error_log_to lv msg w :
  lv ≠ ERROR → adds_no_error w (log_to lv msg w).
Proof.
  intros Hlv r Hr. simpl in Hr. unfold emit in Hr.
  apply elem_of_app in Hr as [Hr | ->%list_elem_of_singleton]; [by left | by right].
Qed.

Lemma delete_file_adds_no_error wd ft path w :
  remove_fault ft path = None → adds_no_error w (delete_file wd ft path w).
Proof.
  intros Hok. unfold delete_file, os_remove. rewrite Hok.
  destruct (os_path_exists path w).
  - intros r Hr. simpl in Hr. unfold emit in Hr.
    apply elem_of_app in Hr as [Hr | ->%list_elem_of_singleton]; [by left | by right].
  - by apply adds_no_error_log_to.
Qed.

Lemma delete_images_adds_no_error ft settings (imgs : list Image) : ∀ w,
  (∀ path, remove_fault ft path = None) →
  adds_no_error w (delete_images ft settings imgs w).
Proof.
  induction imgs as [|i imgs IH]; intros w Hok; [apply adds_no_error_refl|].
  change (delete_images ft settings (i :: imgs) w)
    with (delete_images ft settings imgs
            (delete_file image_wording ft (image_path settings i) w)).
  eapply adds_no_error_trans; [by apply delete_file_adds_no_error | by apply IH].
Qed.

Lemma cleanup_documents_adds_no_error ft settings (docs : list PDFDocument) : ∀ w,
  (∀ path, remove_fault ft path = None) →
  (∀ id, images_fault ft id = None) →
  (cleanup_documents ft settings docs w).2 = Return ()
  ∧ adds_no_error w (cleanup_documents ft settings docs w).1.
Proof.
  induction docs as [|d docs IH]; intros w Hremove Hload.
  - split; [done | apply adds_no_error_refl].
  - cbn [cleanup_documents]. unfold cleanup_document, load_images.
    rewrite Hload.
    set (w1 := log_to INFO ("Cleaning up document: " +:+ doc_id d) w).
    set (w2 := delete_file pdf_wording ft (pdf_path settings d) w1).
    set (w3 := delete_images ft settings (document_images (db w2) d) w2).
    destruct (IH w3 Hremove Hload) as [Hret Hquiet]. split; [done|].
    eapply adds_no_error_trans; [|exact Hquiet].
    eapply adds_no_error_trans; [by apply (adds_no_error_log_to INFO)|].
    eapply adds_no_error_trans; [by apply delete_file_adds_no_error|].
    by apply delete_images_adds_no_error.
Qed.

(** X25. When nothing fails, a sweep writes no error to the log: files that
    are missing give warnings, and every line that the sweep adds is below
    the level [ERROR]. *)
Theorem sweep_without_faults_logs_no_error self ft settings (now : Z) w :
  session_fault ft = None →
  query_fault ft = None →
  close_fault ft = None →
  (∀ id, images_fault ft id = None) →
  (∀ path, remove_fault ft path = None) →
  adds_no_error w (cleanup_old_files self ft settings now w).1.
Proof.
  intros Hsession Hquery Hclose Hload Hremove.
  unfold cleanup_old_files, cleanup_body, finally_close, cleanup_session.
  rewrite Hsession, Hquery, Hclose.
  set (w1 := log_to INFO "Running file cleanup task" w).
  assert (adds_no_error w w1) as H1 by by apply adds_no_error_log_to.
  destruct (old_documents (db w1) (retention_threshold self now)) as [|d docs].
  { simpl. eapply adds_no_error_trans; [exact H1|]. by apply adds_no_error_log_to. }
  set (w2 := log_to INFO _ w1).
  destruct (cleanup_documents_adds_no_error ft settings (d :: docs) w2 Hremove Hload)
    as [Hret Hquiet].
  destruct (cleanup_documents ft settings (d :: docs) w2) as [w3 o].
  simpl in Hret, Hquiet. subst o. simpl.
  eapply adds_no_error_trans; [exact H1|].
  eapply adds_no_error_trans; [by apply (adds_no_error_log_to INFO)|].
  eapply adds_no_error_trans; [exact Hquiet|].
  by apply adds_no_error_log_to.
Qed.

Lemma sweep_without_faults_logs_no_error_witness :
  adds_no_error Samples.files_missing
    (cleanup_old_files Samples.worker_10 no_faults Samples.settings Samples.now
       Samples.files_missing).1.
Proof. by apply sweep_without_faults_logs_no_error. Defined.

End sweep_log.

(** ** The status over the life of the worker *)

Section status_over_life.

Variable isoformat : Z → string.

(** X26. The status of a worker over its life, for a new scheduler whose
    lookups work: once constructed the worker is reported stopped, with one
    job and no next run; once started, running, with one job and the next
    run that the trigger gave; once stopped again, stopped, with no next run
    and no job at all, the scheduler having dropped the job at shutdown. *)
Theorem worker_status_over_life (s : Scheduler) (retention : Z) (log : logger) :
  running s = false →
  jobs s = [] →
  get_job_fault s = None →
  get_jobs_fault s = None →
  ∃ created started stopped,
    (init (Return s) retention log).2 = Return created
    ∧ get_worker_status isoformat created
      = Return {| status_running := false; status_retention_minutes := retention;
                  status_next_run := None; status_job_count := 1 |}
    ∧ (start created log).2 = Return started
    ∧ get_worker_status isoformat started
      = Return {| status_running := true; status_retention_minutes := retention;
                  status_next_run := Some (isoformat (first_fire s));
                  status_job_count := 1 |}
    ∧ (stop started log).2 = Return stopped
    ∧ get_worker_status isoformat stopped
      = Return {| status_running := false; status_retention_minutes := retention;
                  status_next_run := None; status_job_count := 0 |}.
Proof.
  destruct s as [is_running js n m job_fault jobs_fault fire]. simpl.
  intros -> -> -> ->. do 3 eexists.
  split; [reflexivity|]. split; [reflexivity|].
  split; [reflexivity|]. split; [reflexivity|].
  split; reflexivity.
Qed.

End status_over_life.

Lemma worker_status_over_life_witness :
  ∃ created started stopped,
    (init (Return BackgroundScheduler) 10 []).2 = Return created
    ∧ get_worker_status str created
      = Return {| status_running := false; status_retention_minutes := 10;
                  status_next_run := None; status_job_count := 1 |}
    ∧ (start created []).2 = Return started
    ∧ get_worker_status str started
      = Return {| status_running := true; status_retention_minutes := 10;
                  status_next_run := Some (str (first_fire BackgroundScheduler));
                  status_job_count := 1 |}
    ∧ (stop started []).2 = Return stopped
    ∧ get_worker_status str stopped
      = Return {| status_running := false; status_retention_minutes := 10;
                  status_next_run := None; status_job_count := 0 |}.
Proof. by apply worker_status_over_life. Defined.
